(** * ChipWhisperer: OpenADC scope session and the simpleserial-glitch sweeps

    A shallow embedding of

    - [software/chipwhisperer/capture/scopes/OpenADC.py]
      ([OpenADC.dis], [OpenADC.con], [OpenADC.arm], [OpenADC._capture_read],
      [OpenADC.capture], [OpenADC.get_last_trace], [OpenADC.default_setup]);
    - [hardware/victims/firmware/simpleserial-glitch/glitch_101.py] and
      [glitch_201.py] ([reboot_flush], [glitch_loop] and the sweep loop).

    Python objects are records, attribute stores are finite maps from the
    dotted attribute name to its value, exceptions are an explicit outcome of
    a small state-and-exception monad, and everything the scripts observe
    from the hardware (lock status, trigger line, capture data, target
    replies, failures of the USB layer) is an explicit input. *)

From Stdlib Require Import ZArith Lia.
From Stdlib.Strings Require Import Byte.
From stdpp Require Import base option list strings gmap fin_maps sorting.

Local Open Scope string_scope.
Local Open Scope list_scope.
Local Open Scope Z_scope.

(** ** Python values, exceptions and the state-and-exception monad *)

(** The values the scripts store in scope attributes. *)
Inductive Value :=
| VNum (n : Z)
| VStr (s : string)
| VBool (b : bool).

#[global] Instance Value_eq_dec : EqDecision Value.
Proof. solve_decision. Defined.

(** The exception classes that occur.  [HwError] stands for whatever the
    layers below the scope object raise (USB transfer errors and the like);
    all of them derive from [Exception]. *)
Inductive exn :=
| OSError (msg : string)
| ValueError (msg : string)
| TypeError (msg : string)
| IndexError (msg : string)
| StructError (msg : string)
| UnboundLocalError (var : string)
| AttributeError (msg : string)
| HwError (msg : string).

#[global] Instance exn_eq_dec : EqDecision exn.
Proof. solve_decision. Defined.

(** The outcome of running a piece of Python on a state [S]: it returns a
    value, or an exception leaves it; both carry the state reached.
    [Diverged] is the outcome of a [while] loop that was given too little
    fuel. *)
Inductive result (S A : Type) :=
| Ok (a : A) (s : S)
| Raise (e : exn) (s : S)
| Diverged (s : S).
Arguments Ok {S A} a s.
Arguments Raise {S A} e s.
Arguments Diverged {S A} s.

Definition Py (S A : Type) : Type := S → result S A.

Definition ret {S A} (a : A) : Py S A := λ s, Ok a s.

Definition bind {S A B} (m : Py S A) (k : A → Py S B) : Py S B :=
  λ s, match m s with
       | Ok a s' => k a s'
       | Raise e s' => Raise e s'
       | Diverged s' => Diverged s'
       end.

Definition raise {S A} (e : exn) : Py S A := λ s, Raise e s.
Definition get {S} : Py S S := λ s, Ok s s.
Definition gets {S A} (f : S → A) : Py S A := λ s, Ok (f s) s.
Definition modify {S} (f : S → S) : Py S unit := λ s, Ok tt (f s).

(** [try: m  except Exception: h; raise]. *)
Definition try_except_reraise {S A} (m : Py S A) (h : Py S unit) : Py S A :=
  λ s, match m s with
       | Raise e s' =>
           match h s' with
           | Ok _ s'' => Raise e s''
           | Raise e' s'' => Raise e' s''
           | Diverged s'' => Diverged s''
           end
       | r => r
       end.

Declare Scope py_scope.
Delimit Scope py_scope with py.
Notation "x ←ₚ m ;; k" := (bind m (λ x, k))
  (at level 100, m at next level, right associativity) : py_scope.
Notation "m ;;ₚ k" := (bind m (λ _, k))
  (at level 100, right associativity) : py_scope.
Local Open Scope py_scope.

(** Running a computation of a component inside a larger state. *)
Definition zoom {S T A} (proj : T → S) (upd : S → T → T) (m : Py S A) : Py T A :=
  λ t, match m (proj t) with
       | Ok a s => Ok a (upd s t)
       | Raise e s => Raise e (upd s t)
       | Diverged s => Diverged (upd s t)
       end.

(** What a call into the layers below the scope object does: it returns, or
    it raises. *)
Inductive io (A : Type) :=
| Done (a : A)
| Fails (e : exn).
Arguments Done {A} a.
Arguments Fails {A} e.

Definition perform {S A} (r : io A) : Py S A :=
  match r with
  | Done a => ret a
  | Fails e => raise e
  end.

(** ** The OpenADC scope object *)

(** Calls the scope object makes on the objects below it ([self.sc],
    [self.scopetype], [self.advancedSettings], [self.clock]), in program
    order. *)
Inductive HwCall :=
| ArmPreScope
| ScArm
| ArmPostScope
| AdcUpdateCaches
| StartCaptureThread
| ScCapture (streaming : bool)
| ScReadData (num_points : Z)
| ScopetypeDis
| ScopetypeCon
| ResetDcms
| Sleep (ms : Z).

#[global] Instance HwCall_eq_dec : EqDecision HwCall.
Proof. solve_decision. Defined.

(** The fields of [OpenADC] the modelled methods touch.  [settings] holds
    what the attributes of the settings objects ([scope.gain], [scope.adc],
    [scope.clock], [scope.trigger], [scope.io], [scope.glitch], ...) read
    back, keyed by the dotted name. *)
Record OpenADC := mkOpenADC {
  _is_connected : bool;
  connectStatus : bool;
  _is_husky : bool;
  scopetype : bool;          (* [self.scopetype is not None] *)
  advancedSettings : bool;   (* [self.advancedSettings is not None] *)
  data_points : option (list Z);
  settings : gmap string Value;
  hw_log : list HwCall
}.

Definition set_settings (f : gmap string Value → gmap string Value) (s : OpenADC) : OpenADC :=
  mkOpenADC (_is_connected s) (connectStatus s) (_is_husky s) (scopetype s)
            (advancedSettings s) (data_points s) (f (settings s)) (hw_log s).

Definition set_data_points (d : option (list Z)) (s : OpenADC) : OpenADC :=
  mkOpenADC (_is_connected s) (connectStatus s) (_is_husky s) (scopetype s)
            (advancedSettings s) d (settings s) (hw_log s).

Definition set_connected (b : bool) (s : OpenADC) : OpenADC :=
  mkOpenADC b b (_is_husky s) (scopetype s)
            (advancedSettings s) (data_points s) (settings s) (hw_log s).

Definition set_is_husky (b : bool) (s : OpenADC) : OpenADC :=
  mkOpenADC (_is_connected s) (connectStatus s) b (scopetype s)
            (advancedSettings s) (data_points s) (settings s) (hw_log s).

Definition set_scopetype (b : bool) (s : OpenADC) : OpenADC :=
  mkOpenADC (_is_connected s) (connectStatus s) (_is_husky s) b
            (advancedSettings s) (data_points s) (settings s) (hw_log s).

Definition set_advancedSettings (b : bool) (s : OpenADC) : OpenADC :=
  mkOpenADC (_is_connected s) (connectStatus s) (_is_husky s) (scopetype s)
            b (data_points s) (settings s) (hw_log s).

Definition log (c : HwCall) (s : OpenADC) : OpenADC :=
  mkOpenADC (_is_connected s) (connectStatus s) (_is_husky s) (scopetype s)
            (advancedSettings s) (data_points s) (settings s) (hw_log s ++ [c]).

(** [scope.<name> = v]: the attribute reads back what was written. *)
Definition setattr (name : string) (v : Value) : Py OpenADC unit :=
  modify (set_settings <[name := v]>).

(** A run of attribute assignments, in program order. *)
Definition assign (m : gmap string Value) (kv : string * Value) : gmap string Value :=
  <[kv.1 := kv.2]> m.

Definition setattrs (l : list (string * Value)) : Py OpenADC unit :=
  modify (set_settings (λ m, foldl assign m l)).

(** [scope.<name>] read as a number, and its Python truthiness. *)
Definition num (name : string) (s : OpenADC) : Z :=
  match settings s !! name with
  | Some (VNum n) => n
  | Some (VBool true) => 1
  | _ => 0
  end.

Definition truthy (name : string) (s : OpenADC) : bool :=
  match settings s !! name with
  | Some (VNum n) => negb (n =? 0)
  | Some (VBool b) => b
  | Some (VStr x) => negb (String.eqb x "")
  | None => false
  end.

(** A call on a lower-level object: logged, then it returns or raises. *)
Definition hw {A} (c : HwCall) (r : io A) : Py OpenADC A :=
  modify (log c) ;;ₚ perform r.

(** [OpenADC.dis].  The transport's own [dis()] is taken to return. *)
Definition dis : Py OpenADC bool :=
  present ←ₚ gets scopetype ;;
  (if present
   then modify (log ScopetypeDis) ;;ₚ modify (set_advancedSettings false)
   else ret tt) ;;ₚ
  modify (set_connected false) ;;ₚ
  ret true.

(** What [con()] finds on the bus: the kind of device and the values its
    settings read back after the FPGA reset that connecting performs. *)
Record Device := mkDevice {
  cwtype : string;
  power_on : gmap string Value
}.

(** The settings [con()] and [default_setup()] force on a Husky. *)
Definition husky_power_up : list (string * Value) :=
  [ ("adc.test_mode", VBool false);
    ("ADS4128.mode", VStr "normal");
    ("glitch.enabled", VBool false);
    ("LA.enabled", VBool false) ].

(** [OpenADC.con]: new transport, FPGA reset, fresh settings objects. *)
Definition con (found : io Device) : Py OpenADC bool :=
  modify (set_scopetype true) ;;ₚ
  dev ←ₚ hw ScopetypeCon found ;;
  modify (set_settings (λ _, power_on dev)) ;;ₚ
  modify (set_advancedSettings true) ;;ₚ
  (if String.eqb (cwtype dev) "cwhusky"
   then modify (set_is_husky true) ;;ₚ
        setattr "adc.bits_per_sample" (VNum 12) ;;ₚ
        setattrs husky_power_up
   else ret tt) ;;ₚ
  modify (set_connected true) ;;ₚ
  ret true.

(** What the hardware does during one [arm()]: the outcome of each call, in
    the order the method makes them. *)
Record ArmIO := mkArmIO {
  armPreScope : io unit;
  sc_arm : io unit;
  armPostScope : io unit;
  adc_update_caches : io unit;
  startCaptureThread : io unit
}.

Definition arm_ok : ArmIO :=
  mkArmIO (Done tt) (Done tt) (Done tt) (Done tt) (Done tt).

Definition not_connected : exn :=
  OSError "Scope is not connected. Connect it first...".

(** [OpenADC.arm]. *)
Definition arm (h : ArmIO) : Py OpenADC unit :=
  connected ←ₚ gets _is_connected ;;
  if negb connected then raise not_connected
  else
    try_except_reraise
      (extra ←ₚ gets advancedSettings ;;
       (if extra then hw ArmPreScope (armPreScope h)
        else raise (AttributeError "'NoneType' object has no attribute 'armPreScope'")) ;;ₚ
       hw ScArm (sc_arm h) ;;ₚ
       hw ArmPostScope (armPostScope h) ;;ₚ
       husky ←ₚ gets _is_husky ;;
       (if husky then hw AdcUpdateCaches (adc_update_caches h) else ret tt) ;;ₚ
       hw StartCaptureThread (startCaptureThread h))
      (dis ;;ₚ ret tt).

(** What the hardware does during one [capture()]: whether [sc.capture]
    timed out waiting for the trigger, and what [sc.readData] hands back. *)
Record CaptureIO := mkCaptureIO {
  sc_capture : io bool;
  sc_readData : io (option (list Z))
}.

(** [OpenADC._capture_read].  The debug line takes [len(self.data_points)]
    before the test for [None]. *)
Definition _capture_read (rd : io (option (list Z))) (num_points : option Z)
  : Py OpenADC bool :=
  num_points ←ₚ match num_points with
                | None => gets (num "adc.samples")
                | Some n => ret n
                end ;;
  d ←ₚ hw (ScReadData num_points) rd ;;
  modify (set_data_points d) ;;ₚ
  match d with
  | None => raise (TypeError "object of type 'NoneType' has no len()")
  | Some l => ret (negb (Z.of_nat (length l) =? num_points))
  end.

(** The three Husky-only argument checks that open [capture()]. *)
Definition capture_checks (s : OpenADC) : option exn :=
  if _is_husky s && (1 <? num "adc.segments" s) && truthy "adc.presamples" s
     && negb (num "adc.samples" s `mod` 3 =? 0)
  then Some (ValueError "samples per segment must be a multiple of 3")
  else if _is_husky s && (1 <? num "adc.decimate" s)
          && (truthy "adc.presamples" s || (1 <? num "adc.segments" s))
  then Some (ValueError "presamples or segments cannot be used with decimate")
  else if _is_husky s && (1 <? num "adc.segments" s)
          && (num "adc.oa.hwMaxSegmentSamples" s
              <? num "adc.samples" s * num "adc.segments" s)
          && negb (truthy "adc.stream_mode" s)
  then Some (ValueError "too many samples for segments without stream mode")
  else None.

(** The number of samples [capture()] asks [_capture_read] for. *)
Definition total_samples (s : OpenADC) : Z :=
  if _is_husky s then num "adc.samples" s * num "adc.segments" s
  else num "adc.samples" s.

(** [OpenADC.capture]. *)
Definition capture (h : CaptureIO) : Py OpenADC bool :=
  s ←ₚ get ;;
  match capture_checks s with
  | Some e => raise e
  | None =>
      a ←ₚ hw (ScCapture (truthy "adc.stream_mode" s && negb (_is_husky s)))
              (sc_capture h) ;;
      b ←ₚ _capture_read (sc_readData h) (Some (total_samples s)) ;;
      ret (a || b)
  end.

(** [OpenADC.get_last_trace] with [as_int=False]. *)
Definition get_last_trace (s : OpenADC) : option (list Z) := data_points s.

(** The assignments that open [default_setup()], in program order. *)
Definition baseline : list (string * Value) :=
  [ ("gain.db", VNum 25);
    ("adc.samples", VNum 5000);
    ("adc.offset", VNum 0);
    ("adc.basic_mode", VStr "rising_edge");
    ("clock.clkgen_freq", VNum 7370000);
    ("trigger.triggers", VStr "tio4");
    ("io.tio1", VStr "serial_rx");
    ("io.tio2", VStr "serial_tx");
    ("io.hs2", VStr "clkgen");
    ("io.cdc_settings", VNum 0) ].

(** The Husky branch before its lock loop. *)
Definition husky_clock : list (string * Value) :=
  [ ("clock.clkgen_src", VStr "system");
    ("clock.clkgen_freq", VNum 7370000);
    ("clock.adc_mul", VNum 4) ].

(** What the other branch assigns again after it has reconnected. *)
Definition reapplied : list (string * Value) :=
  [ ("gain.db", VNum 25);
    ("adc.samples", VNum 5000);
    ("adc.offset", VNum 0);
    ("adc.basic_mode", VStr "rising_edge");
    ("clock.clkgen_freq", VNum 7370000);
    ("trigger.triggers", VStr "tio4");
    ("clock.adc_src", VStr "clkgen_x4");
    ("io.tio1", VStr "serial_rx");
    ("io.tio2", VStr "serial_tx");
    ("io.hs2", VStr "clkgen");
    ("clock.adc_src", VStr "clkgen_x4") ].

(** What the hardware does during one [default_setup()]: the answer to the
    [n]-th read of [clock.clkgen_locked] (counted from 0), and what the
    [con()] of the retry path finds. *)
Record SetupIO := mkSetupIO {
  clkgen_locked : nat → bool;
  reconnect : io Device
}.

Definition pll_error : exn :=
  OSError "Could not lock PLL. Try rerunning this function or calling scope.pll.reset()".
Definition dcm_error : exn :=
  OSError "Could not lock DCM. Try rerunning this function or calling scope.clock.reset_dcms()".

(** The Husky lock loop; [count] is the local of that name, which is also
    the number of reads of [clkgen_locked] so far. *)
Fixpoint pll_loop (h : SetupIO) (fuel count : nat) : Py OpenADC unit :=
  match fuel with
  | O => Diverged
  | S fuel =>
      if clkgen_locked h count then ret tt
      else
        let count := S count in
        hw ResetDcms (Done tt) ;;ₚ
        if (10 <? count)%nat then raise pll_error
        else pll_loop h fuel count
  end.

(** The [if count == 5:] block: disconnect, connect again, assign again. *)
Definition retry_reconnect (h : SetupIO) : Py OpenADC unit :=
  dis ;;ₚ
  hw (Sleep 250) (Done tt) ;;ₚ
  con (reconnect h) ;;ₚ
  hw (Sleep 250) (Done tt) ;;ₚ
  setattrs reapplied.

(** The lock loop of the other devices. *)
Fixpoint dcm_loop (h : SetupIO) (fuel count : nat) : Py OpenADC unit :=
  match fuel with
  | O => Diverged
  | S fuel =>
      if clkgen_locked h count then ret tt
      else
        hw ResetDcms (Done tt) ;;ₚ
        hw (Sleep 50) (Done tt) ;;ₚ
        let count := S count in
        (if (count =? 5)%nat then retry_reconnect h else ret tt) ;;ₚ
        if (10 <? count)%nat then raise dcm_error
        else dcm_loop h fuel count
  end.

(** [OpenADC.default_setup]. *)
Definition default_setup (h : SetupIO) (fuel : nat) : Py OpenADC unit :=
  setattrs baseline ;;ₚ
  husky ←ₚ gets _is_husky ;;
  if husky then
    setattrs husky_clock ;;ₚ
    pll_loop h fuel 0 ;;ₚ
    setattrs husky_power_up
  else
    setattr "clock.adc_src" (VStr "clkgen_x4") ;;ₚ
    dcm_loop h fuel 0.

(** ** The sweep scripts: [glitch_101.py] and [glitch_201.py] *)

Inductive Group := success | reset | normal.

#[global] Instance Group_eq_dec : EqDecision Group.
Proof. solve_decision. Defined.

(** The dictionary [target.simpleserial_read_witherrors] returns. *)
Record TargetResponse := mkResponse {
  valid : bool;
  payload : option (list byte);
  full_response : list byte;
  rv : Z
}.

(** What the scripts do to the target and to the reset line, in program
    order.  Printing and plotting are left out. *)
Inductive Event :=
| IoNrst (v : Value)
| TimeSleep (ms : Z)
| TargetFlush
| TargetWrite (text : string)
| SimpleserialWrite (cmd : string) (data : list byte)
| SimpleserialRead (cmd : string) (pay_len : Z).

(** The module-level state of a script: the scope, what went into the
    glitch controller [gc], what was done to the target, and [broken]. *)
Record Bench := mkBench {
  scope : OpenADC;
  results : list (Group * list Z);
  trace : list Event;
  broken : bool
}.

Definition set_scope (s : OpenADC) (b : Bench) : Bench :=
  mkBench s (results b) (trace b) (broken b).

Definition on_scope {A} (m : Py OpenADC A) : Py Bench A := zoom scope set_scope m.

Definition emit (e : Event) : Py Bench unit :=
  modify (λ b, mkBench (scope b) (results b) (trace b ++ [e]) (broken b)).

(** Modelled from the spec: [GlitchController.add] of
    [chipwhisperer.common.results.glitch], whose source is not part of the
    files at hand; the campaign result is an append-only ordered sequence of
    (setting, outcome) pairs. *)
Definition gc_add (g : Group) (params : list Z) : Py Bench unit :=
  modify (λ b, mkBench (scope b) (results b ++ [(g, params)]) (trace b) (broken b)).

Definition set_broken : Py Bench unit :=
  modify (λ b, mkBench (scope b) (results b) (trace b) true).

(** [scope.io.nrst = v]. *)
Definition io_nrst (v : Value) : Py Bench unit :=
  on_scope (setattr "io.nrst" v) ;;ₚ emit (IoNrst v).

(** What one call of [reboot_flush] does to the target, with
    [time.sleep(0.05)] as 50 ms. *)
Definition reboot_flush_events : list Event :=
  [ IoNrst (VBool false); TimeSleep 50; IoNrst (VStr "high_z"); TimeSleep 50;
    TargetFlush ].

(** [reboot_flush]. *)
Definition reboot_flush : Py Bench unit :=
  io_nrst (VBool false) ;;ₚ
  emit (TimeSleep 50) ;;ₚ
  io_nrst (VStr "high_z") ;;ₚ
  emit (TimeSleep 50) ;;ₚ
  emit TargetFlush.

(** Reading a local variable that may not have been assigned. *)
Definition load {S A} (var : string) (v : option A) : Py S A :=
  match v with
  | Some a => ret a
  | None => raise (UnboundLocalError var)
  end.

(** [glitch_loop]; [val] is what the target answers. *)
Definition glitch_loop (val : TargetResponse)
  : Py Bench (option (list byte) * list byte * Z) :=
  emit (SimpleserialWrite "g" []) ;;ₚ
  emit (SimpleserialRead "r" 4) ;;ₚ
  let response := if valid val then Some (payload val) else None in
  let raw_serial := if valid val then Some (full_response val) else None in
  let error_code := if valid val then Some (rv val) else None in
  response ←ₚ load "response" response ;;
  raw_serial ←ₚ load "raw_serial" raw_serial ;;
  error_code ←ₚ load "error_code" error_code ;;
  ret (response, raw_serial, error_code).

(** [l[i]] on a list. *)
Definition index {S A} (l : list A) (i : nat) : Py S A :=
  match l !! i with
  | Some a => ret a
  | None => raise (IndexError "list index out of range")
  end.

Definition byte_val (b : byte) : Z := Z.of_N (Byte.to_N b).

(** [struct.unpack("<I", payload)[0]]. *)
Definition unpack_le32 {S} (p : list byte) : Py S Z :=
  match p with
  | [b0; b1; b2; b3] =>
      ret (byte_val b0 + 2 ^ 8 * byte_val b1 + 2 ^ 16 * byte_val b2
           + 2 ^ 24 * byte_val b3)
  | _ => raise (StructError "unpack requires a buffer of 4 bytes")
  end.

(** What the hardware and the target do during one pass of the loop. *)
Record TrialIO := mkTrialIO {
  adc_state : bool;        (* [scope.adc.state]: the trigger line is high *)
  arm_io : ArmIO;
  capture_io : CaptureIO;
  val : TargetResponse
}.

Definition newline : string := String (Ascii.ascii_of_nat 10) "".

(** [(scope.glitch.width, scope.glitch.offset)] as read back. *)
Definition width_offset (b : Bench) : list Z :=
  [num "glitch.width" (scope b); num "glitch.offset" (scope b)].

(** *** glitch_101.py *)

(** Lines 58-59: the setting is applied. *)
Definition apply_101 (glitch_setting : list Z) : Py Bench unit :=
  offset ←ₚ index glitch_setting 1 ;;
  on_scope (setattr "glitch.offset" (VNum offset)) ;;ₚ
  width ←ₚ index glitch_setting 0 ;;
  on_scope (setattr "glitch.width" (VNum width)).

(** Lines 66-72: the trigger line is checked before arming.  There is no
    [continue] in this branch. *)
Definition precheck_101 (h : TrialIO) : Py Bench unit :=
  if adc_state h
  then params ←ₚ gets width_offset ;;
       gc_add reset params ;;ₚ
       reboot_flush
  else ret tt.

(** Lines 74-78: the scope is armed, the target is poked, the capture is
    made and the answer is read.  Returns [ret]. *)
Definition fire_101 (h : TrialIO) : Py Bench bool :=
  on_scope (arm (arm_io h)) ;;ₚ
  emit (TargetWrite ("g" ++ newline)) ;;ₚ
  ret_ ←ₚ on_scope (capture (capture_io h)) ;;
  emit (SimpleserialRead "r" 4) ;;ₚ
  ret ret_.

Definition attempt_101 (glitch_setting : list Z) (h : TrialIO) : Py Bench bool :=
  apply_101 glitch_setting ;;ₚ
  precheck_101 h ;;ₚ
  fire_101 h.

(** Lines 81-109: the outcome is recorded. *)
Definition classify_101 (h : TrialIO) (ret_ : bool) : Py Bench unit :=
  params ←ₚ gets width_offset ;;
  if ret_ then
    gc_add reset params ;;ₚ
    reboot_flush
  else if negb (valid (val h)) then
    gc_add reset params
  else
    match payload (val h) with
    | None => ret tt
    | Some p =>
        gcnt ←ₚ unpack_le32 p ;;
        if negb (gcnt =? 2500)
        then set_broken ;;ₚ gc_add success params
        else gc_add normal params
    end.

Definition trial_101 (glitch_setting : list Z) (h : TrialIO) : Py Bench unit :=
  ret_ ←ₚ attempt_101 glitch_setting h ;;
  classify_101 h ret_.

(** *** glitch_201.py *)

(** Lines 57-65: the setting is applied and read back into [lwid], [loff]
    and [lext_off]. *)
Definition apply_201 (glitch_setting : list Z) : Py Bench (list Z) :=
  width ←ₚ index glitch_setting 0 ;;
  on_scope (setattr "glitch.width" (VNum width)) ;;ₚ
  offset ←ₚ index glitch_setting 1 ;;
  on_scope (setattr "glitch.offset" (VNum offset)) ;;ₚ
  ext_offset ←ₚ index glitch_setting 2 ;;
  on_scope (setattr "glitch.ext_offset" (VNum ext_offset)) ;;ₚ
  loff ←ₚ gets (λ b, num "glitch.offset" (scope b)) ;;
  lwid ←ₚ gets (λ b, num "glitch.width" (scope b)) ;;
  lext_off ←ₚ gets (λ b, num "glitch.ext_offset" (scope b)) ;;
  ret [lwid; loff; lext_off].

(** Lines 67-73. *)
Definition precheck_201 (h : TrialIO) (params : list Z) : Py Bench unit :=
  if adc_state h
  then gc_add reset params ;;ₚ
       reboot_flush
  else ret tt.

(** Lines 75-80. *)
Definition fire_201 (h : TrialIO) : Py Bench bool :=
  on_scope (arm (arm_io h)) ;;ₚ
  emit (SimpleserialWrite "p" [x00; x00; x00; x00; x00]) ;;ₚ
  emit (TargetWrite ("p" ++ newline)) ;;ₚ
  ret_ ←ₚ on_scope (capture (capture_io h)) ;;
  emit (SimpleserialRead "r" 1) ;;ₚ
  ret ret_.

Definition attempt_201 (glitch_setting : list Z) (h : TrialIO)
  : Py Bench (bool * list Z) :=
  params ←ₚ apply_201 glitch_setting ;;
  precheck_201 h params ;;ₚ
  ret_ ←ₚ fire_201 h ;;
  ret (ret_, params).

(** Lines 83-111. *)
Definition classify_201 (h : TrialIO) (r : bool * list Z) : Py Bench unit :=
  let '(ret_, params) := r in
  if ret_ then
    gc_add reset params ;;ₚ
    reboot_flush
  else if negb (valid (val h)) then
    gc_add reset params
  else
    match payload (val h) with
    | None => ret tt
    | Some p =>
        retVal ←ₚ index p 0 ;;
        if negb (byte_val retVal =? 0)
        then set_broken ;;ₚ gc_add success params
        else gc_add normal params
    end.

Definition trial_201 (glitch_setting : list Z) (h : TrialIO) : Py Bench unit :=
  r ←ₚ attempt_201 glitch_setting h ;;
  classify_201 h r.

(** [for glitch_setting in ...: body]; [hs i] is what the hardware does
    during pass [i]. *)
Fixpoint for_each (body : list Z → TrialIO → Py Bench unit) (hs : nat → TrialIO)
    (i : nat) (todo : list (list Z)) : Py Bench unit :=
  match todo with
  | [] => ret tt
  | glitch_setting :: todo =>
      body glitch_setting (hs i) ;;ₚ for_each body hs (S i) todo
  end.

(** ** The sweep generator *)

(** One axis of the parameter space. *)
Record GlitchParameter := mkAxis {
  low : Z;
  high : Z;
  step : Z
}.

(** Modelled from the spec: [GlitchController.glitch_values] of
    [chipwhisperer.common.results.glitch], whose source is not part of the
    files at hand.  An axis is walked from [low] in steps of [step] while the
    value is within the inclusive bound [high]; the settings are the
    Cartesian product in nested order, the first axis in the outermost
    loop. *)
Fixpoint axis_from (fuel : nat) (v hi st : Z) : list Z :=
  match fuel with
  | O => []
  | S fuel => if v <=? hi then v :: axis_from fuel (v + st) hi st else []
  end.

Definition axis_values (a : GlitchParameter) : list Z :=
  axis_from (Z.to_nat (high a - low a + 1)) (low a) (high a) (step a).

Fixpoint glitch_values (axes : list GlitchParameter) : list (list Z) :=
  match axes with
  | [] => [[]]
  | a :: axes =>
      concat (map (λ v, map (cons v) (glitch_values axes)) (axis_values a))
  end.

(** The cardinality the spec gives for an axis. *)
Definition axis_cardinality (a : GlitchParameter) : Z :=
  (high a - low a) `div` step a + 1.

(** The parameter spaces the two scripts declare. *)
Definition space_101 : list GlitchParameter :=
  [ mkAxis 0 20 8; mkAxis 0 10 1 ].

Definition space_201 : list GlitchParameter :=
  [ mkAxis 2 12 1; mkAxis (-11) 11 1; mkAxis 11 13 1 ].

(** The sweeps: [reboot_flush()], then the loop. *)
Definition campaign_101 (hs : nat → TrialIO) : Py Bench unit :=
  reboot_flush ;;ₚ for_each trial_101 hs 0 (glitch_values space_101).

Definition campaign_201 (hs : nat → TrialIO) : Py Bench unit :=
  reboot_flush ;;ₚ for_each trial_201 hs 0 (glitch_values space_201).

(** ** Observations and concrete states used in the statements *)

Definition returned {S A} (r : result S A) : option A :=
  match r with
  | Ok a _ => Some a
  | _ => None
  end.

(** The state a computation stops in, however it stops. *)
Definition final {S A} (r : result S A) : S :=
  match r with
  | Ok _ s => s
  | Raise _ s => s
  | Diverged s => s
  end.

(** The first call of [arm()] that raises, if any: the calls are made in
    this order and the method stops at the first exception. *)
Definition arm_failure (h : ArmIO) (s : OpenADC) : option exn :=
  if negb (advancedSettings s)
  then Some (AttributeError "'NoneType' object has no attribute 'armPreScope'")
  else
    match armPreScope h, sc_arm h, armPostScope h with
    | Fails e, _, _ => Some e
    | Done _, Fails e, _ => Some e
    | Done _, Done _, Fails e => Some e
    | Done _, Done _, Done _ =>
        match (if _is_husky s then adc_update_caches h else Done tt),
              startCaptureThread h with
        | Fails e, _ => Some e
        | Done _, Fails e => Some e
        | Done _, Done _ => None
        end
    end.

(** A connected ChipWhisperer-Lite asked for three samples per capture. *)
Definition lite_scope : OpenADC :=
  mkOpenADC true true false true true None (<["adc.samples" := VNum 3]> ∅) [].

Definition bench_of (s : OpenADC) : Bench := mkBench s [] [] false.

(** The number of [target.flush()] calls in a trace; [reboot_flush] is the
    only code that makes one, once per call. *)
Definition is_flush (e : Event) : bool :=
  match e with
  | TargetFlush => true
  | _ => false
  end.

Definition flushes (t : list Event) : nat := length (List.filter is_flush t).

(** What the check of the trigger line adds to the results and to the
    trace when the line is high. *)
Definition precheck_records (h : TrialIO) (params : list Z) : list (Group * list Z) :=
  if adc_state h then [(reset, params)] else [].

Definition precheck_events (h : TrialIO) : list Event :=
  if adc_state h then reboot_flush_events else [].

(** Concrete passes of the loop: [pass st a d r] has the trigger line at
    [st], every call of [arm()] returning, [sc.capture] returning [a],
    [sc.readData] returning [d] and the target answering [r]. *)
Definition answer (v : bool) (p : option (list byte)) : TargetResponse :=
  mkResponse v p [] 0.

Definition pass (st a : bool) (d : list Z) (r : TargetResponse) : TrialIO :=
  mkTrialIO st arm_ok (mkCaptureIO (Done a) (Done (Some d))) r.

Definition bench0 : Bench := bench_of lite_scope.


(** A well-formed axis: a positive step and a nonempty inclusive range. *)
Definition wf_axis (a : GlitchParameter) : Prop := 0 < step a ∧ low a ≤ high a.

(** The product of the axis cardinalities. *)
Definition trial_count (axes : list GlitchParameter) : Z :=
  foldr (λ a n, axis_cardinality a * n) 1 axes.

Definition in_bounds (a : GlitchParameter) (v : Z) : Prop := low a ≤ v ≤ high a.

(** Nested order: a setting comes before another when it is smaller on the
    first axis on which they differ. *)
Fixpoint lex_ltb (x y : list Z) : bool :=
  match x, y with
  | a :: x, b :: y => (a <? b) || ((a =? b) && lex_ltb x y)
  | _, _ => false
  end.

Definition lex_lt (x y : list Z) : Prop := lex_ltb x y = true.

(** Everything a [default_setup()] that does not reconnect assigns, in
    program order. *)
Definition setup_table (s : OpenADC) : list (string * Value) :=
  baseline ++ (if _is_husky s then husky_clock ++ husky_power_up
               else [("clock.adc_src", VStr "clkgen_x4")]).

(** A run of assignments that leaves every baseline value in place,
    [io.cdc_settings] apart. *)
Definition keeps_baseline (table : list (string * Value)) : Prop :=
  Forall (λ kv, kv.1 = "io.cdc_settings" ∨ foldl assign ∅ table !! kv.1 = Some kv.2)
         baseline.

(** The number of [clock.reset_dcms()] calls in a log. *)
Definition is_reset (c : HwCall) : bool :=
  match c with
  | ResetDcms => true
  | _ => false
  end.

Definition resets (l : list HwCall) : nat := length (List.filter is_reset l).

(** The clock locks before the fifth reset, so that the loop of the
    non-Husky branch never reaches its [if count == 5:] block. *)
Definition quick_lock (h : SetupIO) : bool :=
  existsb (clkgen_locked h) [0; 1; 2; 3; 4]%nat.

Definition no_reconnect (h : SetupIO) (s : OpenADC) : Prop :=
  _is_husky s = true ∨ quick_lock h = true.

(** A clock that locks at the [k]-th read of [clkgen_locked]. *)
Definition locks_at (k : nat) : nat → bool := λ n, (k <=? n)%nat.

(** A connected Lite on which a script has set [glitch.repeat] to 10, and
    the same device as [con()] finds it after its FPGA reset. *)
Definition lite_repeat10 : OpenADC :=
  set_settings <["glitch.repeat" := VNum 10]> lite_scope.

Definition lite_device : Device :=
  mkDevice "cwlite" (<["glitch.repeat" := VNum 1]> ∅).

Definition after_first_setup : OpenADC :=
  final (default_setup (mkSetupIO (locks_at 0) (Done lite_device)) 11 lite_repeat10).

(** ** More of [OpenADC.py] *)

(** [OpenADC.dcmTimeout]; [status] is what the read [self.sc.getStatus()]
    does. *)
Definition dcmTimeout (status : io unit) : Py OpenADC unit :=
  connected ←ₚ gets _is_connected ;;
  if connected
  then try_except_reraise (perform status) (dis ;;ₚ ret tt)
  else ret tt.

(** [needle in hay] on Python strings. *)
Fixpoint contains (needle hay : string) : bool :=
  String.prefix needle hay
  || match hay with
     | String _ rest => contains needle rest
     | EmptyString => false
     end.

(** [OpenADC._getCWType]; [hwInfoVer] is [self.sc.hwInfo.versions()[2]]. *)
Definition _getCWType (hwInfoVer : string) : string :=
  if contains "ChipWhisperer" hwInfoVer then
    if contains "Lite" hwInfoVer then "cwlite"
    else if contains "CW1200" hwInfoVer then "cw1200"
    else if contains "Husky" hwInfoVer then "cwhusky"
    else "cwrev2"
  else "".

(** [OpenADC.get_name]; falling off the end returns [None]. *)
Definition get_name (hwInfoVer : string) : option string :=
  let name := _getCWType hwInfoVer in
  if String.eqb name "cwlite" then Some "ChipWhisperer Lite"
  else if String.eqb name "cw1200" then Some "ChipWhisperer Pro"
  else if String.eqb name "cwhusky" then Some "ChipWhisperer Husky"
  else None.

(** [OpenADC._getFWPy]; the result names the package under
    [hardware.firmware] whose [fwver] is returned. *)
Definition _getFWPy {S} (hwInfoVer : string) : Py S string :=
  let cw_type := _getCWType hwInfoVer in
  if String.eqb cw_type "cwlite" then ret "cwlite"
  else if String.eqb cw_type "cw1200" then ret "cw1200"
  else if String.eqb cw_type "cwhusky" then ret "cwhusky"
  else raise (ValueError ("Unknown cw_type: " ++ cw_type)).

(** [OpenADC.capture_segmented].  [self.sc.capture] is called with the
    offset, the ADC frequency and the FIFO size, never with [None] as in
    stream mode; the warning on a Husky is only logged. *)
Definition capture_segmented (h : CaptureIO) : Py OpenADC bool :=
  s ←ₚ get ;;
  if negb (bool_decide (settings s !! "adc.fifo_fill_mode" = Some (VStr "segment")))
  then raise (OSError "ADC is not in 'segment' mode - aborting.")
  else
    let max_fifo_size := num "adc.oa.hwMaxSamples" s in
    timeout ←ₚ hw (ScCapture false) (sc_capture h) ;;
    timeout2 ←ₚ _capture_read (sc_readData h) (Some (max_fifo_size - 256)) ;;
    ret (timeout || timeout2).

(** [np.reshape(data, (num_seg, seg_len))] for [len(data) = num_seg *
    seg_len] and positive [seg_len]: the rows, in order. *)
Fixpoint rows (num_seg : nat) (seg_len : nat) (data : list Z) : list (list Z) :=
  match num_seg with
  | O => []
  | S num_seg => take seg_len data :: rows num_seg seg_len (drop seg_len data)
  end.

(** How [get_last_trace_segmented] ends. *)
Inductive segmented :=
| Segments (traces : list (list Z))
| NoTrace            (* [data_points] is [None]: [len(None)], TypeError *)
| ZeroDivision       (* [scope.adc.samples] is 1 *)
| BadShape.          (* a negative segment length: numpy refuses the shape *)

(** [OpenADC.get_last_trace_segmented].  [int(len(data) / seg_len)] is a
    float division cut to an integer: the quotient rounded towards zero,
    for every length a list can have. *)
Definition get_last_trace_segmented (s : OpenADC) : segmented :=
  let seg_len := num "adc.samples" s - 1 in
  match data_points s with
  | None => NoTrace
  | Some data =>
      if seg_len =? 0 then ZeroDivision
      else if seg_len <? 0 then BadShape
      else
        let num_seg := Z.quot (Z.of_nat (length data)) seg_len in
        Segments (rows (Z.to_nat num_seg) (Z.to_nat seg_len)
                    (take (Z.to_nat (num_seg * seg_len)) data))
  end.

(** The calls [arm()] makes on the layers below when all of them return, in
    program order. *)
Definition arm_calls (s : OpenADC) : list HwCall :=
  [ArmPreScope; ScArm; ArmPostScope]
  ++ (if _is_husky s then [AdcUpdateCaches] else [])
  ++ [StartCaptureThread].

(** A Lite in ['segment'] FIFO mode with a FIFO of 259 samples, and a Husky
    asked for two segments of ten samples with presamples. *)
Definition segment_scope : OpenADC :=
  set_settings (λ m, <["adc.fifo_fill_mode" := VStr "segment"]>
                       (<["adc.oa.hwMaxSamples" := VNum 259]> m)) lite_scope.

Definition husky_segments_scope : OpenADC :=
  set_is_husky true
    (set_settings (λ m, <["adc.segments" := VNum 2]>
                          (<["adc.presamples" := VNum 1]>
                             (<["adc.samples" := VNum 10]> m))) lite_scope).

(** The number of [con()] calls that reached the transport, in a log. *)
Definition is_con (c : HwCall) : bool :=
  match c with
  | ScopetypeCon => true
  | _ => false
  end.

Definition reconnects (l : list HwCall) : nat := length (List.filter is_con l).

(** What a piece of a sweep may do to the bench: append at most [n]
    results, append events with at most [n] target flushes among them, and
    change no setting other than those named in [keys]. *)
Definition progress (n : nat) (keys : list string) (b b' : Bench) : Prop :=
  (∃ added, results b' = results b ++ added ∧ (length added ≤ n)%nat)
  ∧ (∃ events, trace b' = trace b ++ events ∧ (flushes events ≤ n)%nat)
  ∧ (∀ k, k ∉ keys → settings (scope b') !! k = settings (scope b) !! k).

(** The settings the loop bodies of the two scripts write. *)
Definition sweep_keys : list string :=
  ["glitch.width"; "glitch.offset"; "glitch.ext_offset"; "io.nrst"].


(** The number a byte string stands for when read least significant byte
    first. *)
Definition little_endian (p : list byte) : Z :=
  foldr (λ c acc, byte_val c + 2 ^ 8 * acc) 0 p.

(** A scope on which a pass can arm and capture [n] samples: connected, with
    its settings objects in place, not a Husky, and [adc.samples] at [n]. *)
Definition ready (n : Z) (b : Bench) : Prop :=
  _is_connected (scope b) = true ∧ advancedSettings (scope b) = true
  ∧ _is_husky (scope b) = false ∧ num "adc.samples" (scope b) = n.

(** A pass in which nothing goes wrong: the trigger line is low, every call
    of [arm()] returns, the capture sees its trigger and reads [n] samples,
    and the target's answer is valid. *)
Definition quiet (n : Z) (h : TrialIO) : Prop :=
  adc_state h = false ∧ arm_io h = arm_ok
  ∧ sc_capture (capture_io h) = Done false
  ∧ (∃ d, sc_readData (capture_io h) = Done (Some d) ∧ Z.of_nat (length d) = n)
  ∧ valid (val h) = true.

(** The group each script files a valid answer under. *)
Definition group_101 (p : list byte) : Group :=
  if little_endian p =? 2500 then normal else success.

Definition group_201 (p : list byte) : Group :=
  match p with
  | c :: _ => if byte_val c =? 0 then normal else success
  | [] => normal
  end.

(** The payload of the answer of a pass, empty when there is none. *)
Definition payload_bytes (h : TrialIO) : list byte := default [] (payload (val h)).

(** ** Results *)

(** *** [OpenADC.arm] *)

Ltac run := unfold bind, ret, raise, gets, get, modify, perform, hw; simpl.

Ltac lookups :=
  repeat (rewrite lookup_insert_eq || (rewrite lookup_insert_ne by done)).

(** C7: [arm()] on a scope that is not connected raises the
    "Scope is not connected" [OSError] and leaves the scope object, its log
    of hardware calls included, as it was.  On a connected scope, as soon as
    one of the calls made while arming raises, [arm()] disconnects the
    scope ([_is_connected] and [connectStatus] become [False]) and raises
    that same exception; it returns only when every call returned. *)
Theorem arm_not_connected_or_faulted (h : ArmIO) (s : OpenADC) :
  (_is_connected s = false → arm h s = Raise not_connected s) ∧
  (_is_connected s = true →
   ∀ e, arm_failure h s = Some e →
        ∃ s', arm h s = Raise e s'
              ∧ _is_connected s' = false ∧ connectStatus s' = false) ∧
  (_is_connected s = true →
   arm_failure h s = None →
   ∃ s', arm h s = Ok tt s' ∧ _is_connected s' = true).
Proof.
  destruct s as [c cs hk st adv dp cfg lg], h as [h1 h2 h3 h4 h5].
  unfold arm, arm_failure, try_except_reraise, dis. run.
  split; [|split]; intros Hc; simpl in Hc; subst c; simpl; [reflexivity | |].
  - intros e He. destruct adv; simpl in He.
    + destruct h1 as [[]|e1]; simpl in *;
        [|injection He as <-; destruct st; simpl; eauto].
      destruct h2 as [[]|e2]; simpl in *;
        [|injection He as <-; destruct st; simpl; eauto].
      destruct h3 as [[]|e3]; simpl in *;
        [|injection He as <-; destruct st; simpl; eauto].
      destruct hk; simpl in *.
      * destruct h4 as [[]|e4]; simpl in *;
          [|injection He as <-; destruct st; simpl; eauto].
        destruct h5 as [[]|e5]; simpl in *; [discriminate|].
        injection He as <-; destruct st; simpl; eauto.
      * destruct h5 as [[]|e5]; simpl in *; [discriminate|].
        injection He as <-; destruct st; simpl; eauto.
    + injection He as <-. destruct st; simpl; eauto.
  - intros He. destruct adv; simpl in He; [|discriminate].
    destruct h1 as [[]|e1]; simpl in *; [|discriminate].
    destruct h2 as [[]|e2]; simpl in *; [|discriminate].
    destruct h3 as [[]|e3]; simpl in *; [|discriminate].
    destruct hk; simpl in *.
    + destruct h4 as [[]|e4]; simpl in *; [|discriminate].
      destruct h5 as [[]|e5]; simpl in *; [|discriminate]. eauto.
    + destruct h5 as [[]|e5]; simpl in *; [|discriminate]. eauto.
Qed.

(** An unconnected scope refuses; a connected one whose [sc.arm()] raises is
    left disconnected with that exception; a connected one whose calls all
    return is armed. *)
Lemma arm_not_connected_or_faulted_witness :
  arm arm_ok (set_connected false lite_scope)
    = Raise not_connected (set_connected false lite_scope)
  ∧ (∃ s', arm (mkArmIO (Done tt) (Fails (HwError "usb")) (Done tt) (Done tt) (Done tt))
               lite_scope = Raise (HwError "usb") s'
           ∧ _is_connected s' = false ∧ connectStatus s' = false)
  ∧ (∃ s', arm arm_ok lite_scope = Ok tt s' ∧ _is_connected s' = true).
Proof.
  split; [|split].
  - apply (arm_not_connected_or_faulted arm_ok (set_connected false lite_scope)).
    reflexivity.
  - apply (arm_not_connected_or_faulted
             (mkArmIO (Done tt) (Fails (HwError "usb")) (Done tt) (Done tt) (Done tt))
             lite_scope); reflexivity.
  - apply (arm_not_connected_or_faulted arm_ok lite_scope); reflexivity.
Defined.

(** *** [OpenADC.capture] *)

(** Whatever the hardware does, [capture()] leaves the connection flags and
    the settings alone. *)
Lemma capture_keeps_session (h : CaptureIO) (s : OpenADC) :
  _is_connected (final (capture h s)) = _is_connected s
  ∧ connectStatus (final (capture h s)) = connectStatus s
  ∧ settings (final (capture h s)) = settings s.
Proof.
  destruct h as [c r]. unfold capture, _capture_read. run.
  destruct (capture_checks s); simpl; [done|].
  destruct c as [a|e]; simpl; [|done].
  destruct r as [[d|]|e]; simpl; done.
Qed.

(** C1, as the code has it: when [sc.capture] reports [a] (the trigger timed
    out or not) and [sc.readData] hands back the samples [d], [capture()]
    returns the one boolean [a or (len(d) != requested)] -- [True] for a
    timeout and [True] again for a read of the wrong length, [False]
    otherwise -- and never the samples themselves, which are left in
    [data_points] for [get_last_trace()].  The scope stays connected and its
    settings are unchanged. *)
Theorem capture_outcome (s : OpenADC) (a : bool) (d : list Z) :
  capture_checks s = None →
  ∃ s', capture (mkCaptureIO (Done a) (Done (Some d))) s
          = Ok (a || negb (Z.of_nat (length d) =? total_samples s)) s'
        ∧ get_last_trace s' = Some d
        ∧ _is_connected s' = _is_connected s
        ∧ connectStatus s' = connectStatus s
        ∧ settings s' = settings s.
Proof.
  intros Hchk. unfold capture, _capture_read. run. rewrite Hchk. simpl.
  eexists. split; [reflexivity|]. simpl. done.
Qed.

Lemma capture_outcome_witness :
  ∃ s', capture (mkCaptureIO (Done false) (Done (Some [7; 8; 9]))) lite_scope
          = Ok false s'
        ∧ get_last_trace s' = Some [7; 8; 9]
        ∧ _is_connected s' = true
        ∧ connectStatus s' = true
        ∧ settings s' = settings lite_scope.
Proof. apply (capture_outcome lite_scope false [7; 8; 9]). reflexivity. Defined.

(** C1 as stated fails: a capture whose trigger timed out (all three samples
    read) and a capture that triggered but read two samples of three both
    return [True]; the short read has no indication of its own. *)
Lemma capture_short_read_not_distinct :
  returned (capture (mkCaptureIO (Done true) (Done (Some [7; 8; 9]))) lite_scope)
    = Some true
  ∧ returned (capture (mkCaptureIO (Done false) (Done (Some [7; 8]))) lite_scope)
    = Some true.
Proof. split; reflexivity. Qed.

(** *** [reboot_flush] and [glitch_loop] *)

Lemma reboot_flush_spec (b : Bench) :
  reboot_flush b =
    Ok tt (mkBench (set_settings <["io.nrst" := VStr "high_z"]> (scope b))
             (results b) (trace b ++ reboot_flush_events) (broken b)).
Proof.
  unfold reboot_flush, io_nrst, on_scope, zoom, emit, setattr. run.
  destruct b as [[c cs hk st adv dp cfg lg] rs tr br]; simpl.
  unfold set_scope, set_settings; simpl.
  rewrite insert_insert_eq. rewrite <- !app_assoc. reflexivity.
Qed.



(** C10: [glitch_loop()] sends the ['g'] command and reads the answer; when
    the answer has [valid] true it returns the triple of its [payload],
    [full_response] and [rv]; when [valid] is false none of the three locals
    was assigned and the [return] raises [UnboundLocalError] for the first
    of them, [response]. *)
Theorem glitch_loop_returns_iff_valid (val : TargetResponse) (b : Bench) :
  glitch_loop val b =
    let b' := mkBench (scope b) (results b)
                (trace b ++ [SimpleserialWrite "g" []; SimpleserialRead "r" 4])
                (broken b) in
    if valid val
    then Ok (payload val, full_response val, rv val) b'
    else Raise (UnboundLocalError "response") b'.
Proof.
  unfold glitch_loop, emit, load. run. rewrite <- app_assoc. simpl.
  destruct (valid val); reflexivity.
Qed.

(** *** The loop body *)

Lemma bind_Ok_inv {S A B} (m : Py S A) (k : A → Py S B) s b s2 :
  bind m k s = Ok b s2 → ∃ a s1, m s = Ok a s1 ∧ k a s1 = Ok b s2.
Proof. unfold bind. destruct (m s); [eauto | done | done]. Qed.

Lemma on_scope_Ok_inv {A} (m : Py OpenADC A) b a b1 :
  on_scope m b = Ok a b1 → ∃ s1, m (scope b) = Ok a s1 ∧ b1 = set_scope s1 b.
Proof.
  unfold on_scope, zoom. destruct (m (scope b)); [|done|done].
  intros [= <- <-]. eauto.
Qed.

Lemma arm_Ok_settings h s a s1 : arm h s = Ok a s1 → settings s1 = settings s.
Proof.
  destruct s as [c cs hk st adv dp cfg lg], h as [h1 h2 h3 h4 h5].
  unfold arm, try_except_reraise, dis. run.
  destruct c; simpl; [|done]. destruct adv; simpl; [|destruct st; done].
  destruct h1 as [[]|?]; simpl; [|destruct st; done].
  destruct h2 as [[]|?]; simpl; [|destruct st; done].
  destruct h3 as [[]|?]; simpl; [|destruct st; done].
  destruct hk; simpl.
  - destruct h4 as [[]|?]; simpl; [|destruct st; done].
    destruct h5 as [[]|?]; simpl; [|destruct st; done]. by intros [= <- <-].
  - destruct h5 as [[]|?]; simpl; [|destruct st; done]. by intros [= <- <-].
Qed.

Lemma capture_Ok_settings h s a s1 : capture h s = Ok a s1 → settings s1 = settings s.
Proof.
  intros H. pose proof (capture_keeps_session h s) as (_ & _ & Hs).
  by rewrite H in Hs.
Qed.

Lemma fire_101_inv h b r b1 :
  fire_101 h b = Ok r b1 →
  results b1 = results b ∧ broken b1 = broken b
  ∧ settings (scope b1) = settings (scope b)
  ∧ trace b1 = trace b ++ [TargetWrite ("g" ++ newline); SimpleserialRead "r" 4].
Proof.
  unfold fire_101. intros H.
  apply bind_Ok_inv in H as ([] & b2 & Ha & H).
  apply on_scope_Ok_inv in Ha as (s2 & Ha & ->).
  apply bind_Ok_inv in H as ([] & b3 & [= <-] & H).
  apply bind_Ok_inv in H as (r' & b4 & Hc & H).
  apply on_scope_Ok_inv in Hc as (s4 & Hc & ->).
  apply bind_Ok_inv in H as ([] & b5 & [= <-] & [= <- <-]).
  simpl in *. apply arm_Ok_settings in Ha. apply capture_Ok_settings in Hc.
  rewrite <- app_assoc. simpl. repeat split; congruence.
Qed.

Lemma fire_201_inv h b r b1 :
  fire_201 h b = Ok r b1 →
  results b1 = results b ∧ broken b1 = broken b
  ∧ settings (scope b1) = settings (scope b)
  ∧ trace b1 = trace b ++ [SimpleserialWrite "p" [x00; x00; x00; x00; x00];
                           TargetWrite ("p" ++ newline); SimpleserialRead "r" 1].
Proof.
  unfold fire_201. intros H.
  apply bind_Ok_inv in H as ([] & b2 & Ha & H).
  apply on_scope_Ok_inv in Ha as (s2 & Ha & ->).
  apply bind_Ok_inv in H as ([] & b3 & [= <-] & H).
  apply bind_Ok_inv in H as ([] & b3' & [= <-] & H).
  apply bind_Ok_inv in H as (r' & b4 & Hc & H).
  apply on_scope_Ok_inv in Hc as (s4 & Hc & ->).
  apply bind_Ok_inv in H as ([] & b5 & [= <-] & [= <- <-]).
  simpl in *. apply arm_Ok_settings in Ha. apply capture_Ok_settings in Hc.
  rewrite <- !app_assoc. simpl. repeat split; congruence.
Qed.

Lemma apply_101_inv gs b u ba :
  apply_101 gs b = Ok u ba →
  ∃ w o, gs !! 0%nat = Some w ∧ gs !! 1%nat = Some o
         ∧ ba = set_scope (set_settings
                  (λ m, <["glitch.width" := VNum w]> (<["glitch.offset" := VNum o]> m))
                  (scope b)) b.
Proof.
  unfold apply_101, index, on_scope, zoom, setattr. run.
  destruct (gs !! 1%nat) as [o|]; simpl; [|done].
  destruct (gs !! 0%nat) as [w|]; simpl; [|done].
  intros [= _ <-]. exists w, o. repeat split.
Qed.

Lemma precheck_101_spec h b :
  precheck_101 h b =
    Ok tt (if adc_state h
           then mkBench (set_settings <["io.nrst" := VStr "high_z"]> (scope b))
                  (results b ++ [(reset, width_offset b)])
                  (trace b ++ reboot_flush_events) (broken b)
           else b).
Proof.
  unfold precheck_101. destruct (adc_state h); [|done].
  unfold gc_add. run. by rewrite reboot_flush_spec.
Qed.

Lemma attempt_101_inv gs h b r b1 :
  attempt_101 gs h b = Ok r b1 →
  ∃ w o, gs !! 0%nat = Some w ∧ gs !! 1%nat = Some o
         ∧ width_offset b1 = [w; o]
         ∧ results b1 = results b ++ precheck_records h [w; o]
         ∧ trace b1 = trace b ++ precheck_events h
                        ++ [TargetWrite ("g" ++ newline); SimpleserialRead "r" 4]
         ∧ broken b1 = broken b.
Proof.
  unfold attempt_101. intros H.
  apply bind_Ok_inv in H as ([] & ba & Ha & H).
  apply apply_101_inv in Ha as (w & o & Hw & Ho & ->).
  apply bind_Ok_inv in H as ([] & bb & Hp & H).
  rewrite precheck_101_spec in Hp. injection Hp as <-.
  apply fire_101_inv in H as (Hr & Hb & Hs & Ht).
  exists w, o. split; [done|]. split; [done|].
  unfold width_offset, num, precheck_records, precheck_events in *.
  rewrite Hs, Hr, Ht, Hb. clear.
  destruct (adc_state h); simpl.
  - lookups. rewrite <- app_assoc. done.
  - lookups. rewrite app_nil_r. done.
Qed.

Lemma apply_201_inv gs b params ba :
  apply_201 gs b = Ok params ba →
  ∃ w o e, gs !! 0%nat = Some w ∧ gs !! 1%nat = Some o ∧ gs !! 2%nat = Some e
           ∧ params = [w; o; e]
           ∧ ba = set_scope (set_settings
                    (λ m, <["glitch.ext_offset" := VNum e]>
                            (<["glitch.offset" := VNum o]>
                               (<["glitch.width" := VNum w]> m)))
                    (scope b)) b.
Proof.
  unfold apply_201, index, on_scope, zoom, setattr. run.
  destruct (gs !! 0%nat) as [w|]; simpl; [|done].
  destruct (gs !! 1%nat) as [o|]; simpl; [|done].
  destruct (gs !! 2%nat) as [e|]; simpl; [|done].
  unfold num; simpl. lookups.
  intros [= <- <-]. exists w, o, e. repeat split.
Qed.

Lemma precheck_201_spec h params b :
  precheck_201 h params b =
    Ok tt (if adc_state h
           then mkBench (set_settings <["io.nrst" := VStr "high_z"]> (scope b))
                  (results b ++ [(reset, params)])
                  (trace b ++ reboot_flush_events) (broken b)
           else b).
Proof.
  unfold precheck_201. destruct (adc_state h); [|done].
  unfold gc_add. run. by rewrite reboot_flush_spec.
Qed.

Lemma attempt_201_inv gs h b r params b1 :
  attempt_201 gs h b = Ok (r, params) b1 →
  ∃ w o e, gs !! 0%nat = Some w ∧ gs !! 1%nat = Some o ∧ gs !! 2%nat = Some e
           ∧ params = [w; o; e]
           ∧ results b1 = results b ++ precheck_records h [w; o; e]
           ∧ trace b1 = trace b ++ precheck_events h
                          ++ [SimpleserialWrite "p" [x00; x00; x00; x00; x00];
                              TargetWrite ("p" ++ newline); SimpleserialRead "r" 1]
           ∧ broken b1 = broken b.
Proof.
  unfold attempt_201. intros H.
  apply bind_Ok_inv in H as (ps & ba & Ha & H).
  apply apply_201_inv in Ha as (w & o & e & Hw & Ho & He & -> & ->).
  apply bind_Ok_inv in H as ([] & bb & Hp & H).
  rewrite precheck_201_spec in Hp. injection Hp as <-.
  apply bind_Ok_inv in H as (r' & bc & H & [= <- <- <-]).
  apply fire_201_inv in H as (Hr & Hb & Hs & Ht).
  exists w, o, e. do 4 (split; [done|]).
  unfold precheck_records, precheck_events in *.
  rewrite Hr, Ht, Hb. clear.
  destruct (adc_state h); simpl.
  - rewrite <- app_assoc. done.
  - rewrite app_nil_r. done.
Qed.

(** What [classify_101] and [classify_201] do after a capture that returned
    [True]. *)
Lemma classify_101_timeout h b :
  classify_101 h true b =
    Ok tt (mkBench (set_settings <["io.nrst" := VStr "high_z"]> (scope b))
             (results b ++ [(reset, width_offset b)])
             (trace b ++ reboot_flush_events) (broken b)).
Proof. unfold classify_101, gc_add. run. by rewrite reboot_flush_spec. Qed.

Lemma classify_201_timeout h params b :
  classify_201 h (true, params) b =
    Ok tt (mkBench (set_settings <["io.nrst" := VStr "high_z"]> (scope b))
             (results b ++ [(reset, params)])
             (trace b ++ reboot_flush_events) (broken b)).
Proof. unfold classify_201, gc_add. run. by rewrite reboot_flush_spec. Qed.

Lemma flushes_app t1 t2 : flushes (t1 ++ t2) = (flushes t1 + flushes t2)%nat.
Proof. unfold flushes. by rewrite List.filter_app, length_app. Qed.

Lemma flushes_precheck h : flushes (precheck_events h) = if adc_state h then 1%nat else 0%nat.
Proof. unfold precheck_events. by destruct (adc_state h). Qed.

(** C4, as the code has it: in a pass of the loop whose [scope.capture()]
    returned [True] (no trigger), the branch taken records [reset] for the
    setting and calls [reboot_flush()] once, the pass ends without an
    exception and the loop goes on with the next setting.  Counting the whole
    pass, that is one [reset] record and one [reboot_flush()] when the
    trigger line was low before arming, and one more of each when it was
    high. *)
Theorem timeout_trial_is_reset :
  (∀ gs h b b1,
     attempt_101 gs h b = Ok true b1 →
     ∃ w o b2,
       gs !! 0%nat = Some w ∧ gs !! 1%nat = Some o
       ∧ trial_101 gs h b = Ok tt b2
       ∧ results b2 = results b ++ precheck_records h [w; o] ++ [(reset, [w; o])]
       ∧ trace b2 = trace b1 ++ reboot_flush_events
       ∧ flushes (trace b2)
         = (flushes (trace b) + (if adc_state h then 1 else 0) + 1)%nat
       ∧ ∀ hs i todo,
           hs i = h →
           for_each trial_101 hs i (gs :: todo) b
           = for_each trial_101 hs (S i) todo b2)
  ∧ (∀ gs h b params b1,
       attempt_201 gs h b = Ok (true, params) b1 →
       ∃ w o e b2,
         gs !! 0%nat = Some w ∧ gs !! 1%nat = Some o ∧ gs !! 2%nat = Some e
         ∧ trial_201 gs h b = Ok tt b2
         ∧ results b2
           = results b ++ precheck_records h [w; o; e] ++ [(reset, [w; o; e])]
         ∧ trace b2 = trace b1 ++ reboot_flush_events
         ∧ flushes (trace b2)
           = (flushes (trace b) + (if adc_state h then 1 else 0) + 1)%nat
         ∧ ∀ hs i todo,
             hs i = h →
             for_each trial_201 hs i (gs :: todo) b
             = for_each trial_201 hs (S i) todo b2).
Proof.
  split.
  - intros gs h b b1 Ha.
    destruct (attempt_101_inv _ _ _ _ _ Ha) as (w & o & Hw & Ho & Hwo & Hr & Ht & _).
    exists w, o. eexists. split; [done|]. split; [done|].
    assert (Htrial : trial_101 gs h b = classify_101 h true b1)
      by (unfold trial_101, bind; by rewrite Ha).
    rewrite classify_101_timeout in Htrial.
    split; [exact Htrial|]. simpl.
    split; [by rewrite Hwo, Hr, <- app_assoc|].
    split; [done|].
    split.
    + rewrite Ht, !flushes_app, flushes_precheck.
      unfold flushes; simpl. destruct (adc_state h); lia.
    + intros hs i todo <-. simpl. unfold bind at 1. by rewrite Htrial.
  - intros gs h b params b1 Ha.
    destruct (attempt_201_inv _ _ _ _ _ _ Ha)
      as (w & o & e & Hw & Ho & He & -> & Hr & Ht & _).
    exists w, o, e. eexists. do 3 (split; [done|]).
    assert (Htrial : trial_201 gs h b = classify_201 h (true, [w; o; e]) b1)
      by (unfold trial_201, bind; by rewrite Ha).
    rewrite classify_201_timeout in Htrial.
    split; [exact Htrial|]. simpl.
    split; [by rewrite Hr, <- app_assoc|].
    split; [done|].
    split.
    + rewrite Ht, !flushes_app, flushes_precheck.
      unfold flushes; simpl. destruct (adc_state h); lia.
    + intros hs i todo <-. simpl. unfold bind at 1. by rewrite Htrial.
Qed.

Lemma timeout_trial_is_reset_witness :
  ∃ b2,
    trial_101 [8; 3] (pass false true [7; 8; 9] (answer false None)) bench0 = Ok tt b2
    ∧ results b2 = [(reset, [8; 3])]
    ∧ flushes (trace b2) = 1%nat.
Proof.
  destruct (proj1 timeout_trial_is_reset [8; 3]
              (pass false true [7; 8; 9] (answer false None)) bench0
              (final (attempt_101 [8; 3]
                        (pass false true [7; 8; 9] (answer false None)) bench0))
              eq_refl)
    as (w & o & b2 & Hw & Ho & Ht & Hr & _ & Hf & _).
  exists b2. injection Hw as <-. injection Ho as <-.
  split; [exact Ht|]. split; [exact Hr | exact Hf].
Defined.

(** C4 as stated fails: in a pass whose trigger line was high before arming
    and whose capture then timed out, [reboot_flush()] runs twice and two
    [reset] records are made. *)
Lemma timeout_after_precheck_recovers_twice :
  returned (attempt_101 [8; 3] (pass true true [7; 8; 9] (answer false None)) bench0)
    = Some true
  ∧ flushes (trace (final (trial_101 [8; 3]
                             (pass true true [7; 8; 9] (answer false None)) bench0)))
    = 2%nat
  ∧ results (final (trial_101 [8; 3]
                      (pass true true [7; 8; 9] (answer false None)) bench0))
    = [(reset, [8; 3]); (reset, [8; 3])].
Proof. repeat split; reflexivity. Qed.




(** C6, as the code has it: in a pass of the loop whose [scope.capture()]
    returned [False], an answer with [valid] false makes the pass record
    [reset] for the setting without calling [reboot_flush()] after the
    capture, and an answer with [valid] true and no payload makes the pass
    record nothing after the capture; either way the pass ends without an
    exception and the loop goes on with the next setting.  What the check of
    the trigger line recorded before arming, if the line was high, stays in
    the results. *)
Theorem invalid_or_empty_answer :
  (∀ gs h b b1,
     attempt_101 gs h b = Ok false b1 →
     ∃ w o,
       gs !! 0%nat = Some w ∧ gs !! 1%nat = Some o
       ∧ results b1 = results b ++ precheck_records h [w; o]
       ∧ (valid (val h) = false →
          ∃ b2, trial_101 gs h b = Ok tt b2
                ∧ results b2 = results b1 ++ [(reset, [w; o])]
                ∧ trace b2 = trace b1)
       ∧ (valid (val h) = true → payload (val h) = None →
          trial_101 gs h b = Ok tt b1)
       ∧ ∀ hs i todo b2,
           hs i = h → trial_101 gs h b = Ok tt b2 →
           for_each trial_101 hs i (gs :: todo) b
           = for_each trial_101 hs (S i) todo b2)
  ∧ (∀ gs h b params b1,
       attempt_201 gs h b = Ok (false, params) b1 →
       ∃ w o e,
         gs !! 0%nat = Some w ∧ gs !! 1%nat = Some o ∧ gs !! 2%nat = Some e
         ∧ results b1 = results b ++ precheck_records h [w; o; e]
         ∧ (valid (val h) = false →
            ∃ b2, trial_201 gs h b = Ok tt b2
                  ∧ results b2 = results b1 ++ [(reset, [w; o; e])]
                  ∧ trace b2 = trace b1)
         ∧ (valid (val h) = true → payload (val h) = None →
            trial_201 gs h b = Ok tt b1)
         ∧ ∀ hs i todo b2,
             hs i = h → trial_201 gs h b = Ok tt b2 →
             for_each trial_201 hs i (gs :: todo) b
             = for_each trial_201 hs (S i) todo b2).
Proof.
  split.
  - intros gs h b b1 Ha.
    destruct (attempt_101_inv _ _ _ _ _ Ha) as (w & o & Hw & Ho & Hwo & Hr & _).
    exists w, o. do 3 (split; [done|]).
    assert (Htrial : trial_101 gs h b = classify_101 h false b1)
      by (unfold trial_101, bind; by rewrite Ha).
    unfold classify_101, gc_add in Htrial. revert Htrial. run. intros Htrial.
    split; [|split].
    + intros Hv. rewrite Hv, Hwo in Htrial. simpl in Htrial.
      eexists. split; [exact Htrial|]. done.
    + intros Hv Hp. rewrite Hv, Hp in Htrial. simpl in Htrial.
      by destruct b1.
    + intros hs i todo b2 <- Hb2. simpl. unfold bind at 1. by rewrite Hb2.
  - intros gs h b params b1 Ha.
    destruct (attempt_201_inv _ _ _ _ _ _ Ha)
      as (w & o & e & Hw & Ho & He & -> & Hr & _).
    exists w, o, e. do 4 (split; [done|]).
    assert (Htrial : trial_201 gs h b = classify_201 h (false, [w; o; e]) b1)
      by (unfold trial_201, bind; by rewrite Ha).
    unfold classify_201, gc_add in Htrial. revert Htrial. run. intros Htrial.
    split; [|split].
    + intros Hv. rewrite Hv in Htrial. simpl in Htrial.
      eexists. split; [exact Htrial|]. done.
    + intros Hv Hp. rewrite Hv, Hp in Htrial. simpl in Htrial.
      by destruct b1.
    + intros hs i todo b2 <- Hb2. simpl. unfold bind at 1. by rewrite Hb2.
Qed.

Lemma invalid_or_empty_answer_witness :
  (∃ b2,
     trial_101 [8; 3] (pass false false [7; 8; 9] (answer false None)) bench0 = Ok tt b2
     ∧ results b2 = [(reset, [8; 3])]
     ∧ flushes (trace b2) = 0%nat)
  ∧ (∃ b1,
       trial_101 [8; 3] (pass false false [7; 8; 9] (answer true None)) bench0 = Ok tt b1
       ∧ results b1 = []).
Proof.
  split.
  - destruct (proj1 invalid_or_empty_answer [8; 3]
                (pass false false [7; 8; 9] (answer false None)) bench0
                (final (attempt_101 [8; 3]
                          (pass false false [7; 8; 9] (answer false None)) bench0))
                eq_refl)
      as (w & o & Hw & Ho & _ & Hinv & _).
    destruct (Hinv eq_refl) as (b2 & Ht & Hr & Htr).
    exists b2. injection Hw as <-. injection Ho as <-.
    split; [exact Ht|]. split; [exact Hr|]. rewrite Htr. reflexivity.
  - destruct (proj1 invalid_or_empty_answer [8; 3]
                (pass false false [7; 8; 9] (answer true None)) bench0
                (final (attempt_101 [8; 3]
                          (pass false false [7; 8; 9] (answer true None)) bench0))
                eq_refl)
      as (w & o & Hw & Ho & Hr & _ & Hnone & _).
    eexists. split; [exact (Hnone eq_refl eq_refl)|]. reflexivity.
Defined.

(** C6 as stated fails: in a pass whose trigger line was high before arming,
    whose capture then completed and whose answer is valid without a
    payload, an outcome is recorded for the setting all the same, the
    [reset] of the check before arming. *)
Lemma empty_answer_after_precheck_is_recorded :
  returned (attempt_101 [8; 3] (pass true false [7; 8; 9] (answer true None)) bench0)
    = Some false
  ∧ returned (trial_101 [8; 3] (pass true false [7; 8; 9] (answer true None)) bench0)
    = Some tt
  ∧ results (final (trial_101 [8; 3]
                      (pass true false [7; 8; 9] (answer true None)) bench0))
    = [(reset, [8; 3])].
Proof. repeat split; reflexivity. Qed.












(** *** The sweep generator *)

Section Axis.
Variables (hi st : Z).
Hypothesis st_pos : 0 < st.

Lemma axis_from_bounds fuel v x :
  In x (axis_from fuel v hi st) → v ≤ x ≤ hi.
Proof.
  revert v. induction fuel as [|fuel IH]; intros v; simpl; [done|].
  destruct (Z.leb_spec v hi) as [Hle|]; [|done].
  intros [<- | Hin]; [lia|]. apply IH in Hin. lia.
Qed.

Lemma axis_from_sorted fuel v : StronglySorted Z.lt (axis_from fuel v hi st).
Proof.
  revert v. induction fuel as [|fuel IH]; intros v; simpl; [constructor|].
  destruct (v <=? hi); [|constructor].
  constructor; [apply IH|].
  apply List.Forall_forall. intros x Hx. apply axis_from_bounds in Hx. lia.
Qed.

Lemma axis_from_length fuel v :
  v ≤ hi → hi - v + 1 ≤ Z.of_nat fuel →
  Z.of_nat (length (axis_from fuel v hi st)) = (hi - v) `div` st + 1.
Proof.
  revert v. induction fuel as [|fuel IH]; intros v Hv Hfuel; [lia|].
  simpl axis_from. destruct (Z.leb_spec v hi) as [_|]; [|lia].
  simpl length. rewrite Nat2Z.inj_succ.
  destruct (Z.le_gt_cases (v + st) hi) as [Hnext|Hlast].
  - rewrite IH by lia.
    replace (hi - v) with (hi - (v + st) + 1 * st) by lia.
    rewrite Z.div_add by lia. lia.
  - rewrite (Z.div_small (hi - v) st) by lia.
    destruct fuel as [|fuel]; simpl; [done|].
    destruct (Z.leb_spec (v + st) hi); [lia|done].
Qed.
End Axis.

Lemma axis_values_length a :
  wf_axis a → Z.of_nat (length (axis_values a)) = axis_cardinality a.
Proof.
  intros [Hst Hlh]. unfold axis_values, axis_cardinality.
  apply axis_from_length; lia.
Qed.

Lemma length_product {A B} (f : A → list B) (l : list A) n :
  (∀ x, length (f x) = n) → length (concat (map f l)) = (length l * n)%nat.
Proof.
  intros Hf. induction l as [|x l IH]; simpl; [done|].
  rewrite length_app, Hf, IH. done.
Qed.

Lemma glitch_values_length axes :
  Forall wf_axis axes →
  Z.of_nat (length (glitch_values axes)) = trial_count axes.
Proof.
  induction 1 as [|a axes Ha _ IH]; simpl; [done|].
  rewrite (length_product _ _ (length (glitch_values axes)))
    by (intros; apply length_map).
  rewrite Nat2Z.inj_mul, IH, axis_values_length by done. done.
Qed.

Lemma glitch_values_bounds axes gs :
  Forall wf_axis axes →
  In gs (glitch_values axes) → Forall2 in_bounds axes gs.
Proof.
  intros Hwf. revert gs. induction Hwf as [|a axes [Ha _] _ IH]; intros gs; simpl.
  - intros [<- | []]. constructor.
  - rewrite in_concat. intros (block & Hblock & Hgs).
    apply in_map_iff in Hblock as (v & <- & Hv).
    apply in_map_iff in Hgs as (rest & <- & Hrest).
    constructor; [|by apply IH].
    apply axis_from_bounds in Hv; [|done]. done.
Qed.

Lemma lex_lt_head v w x y : v < w → lex_lt (v :: x) (w :: y).
Proof. intros H. unfold lex_lt. simpl. by rewrite (proj2 (Z.ltb_lt v w) H). Qed.

Lemma lex_lt_tail v x y : lex_lt x y → lex_lt (v :: x) (v :: y).
Proof.
  unfold lex_lt. simpl. intros ->. rewrite Z.eqb_refl. apply orb_true_r.
Qed.

Lemma product_sorted (vals : list Z) (rest : list (list Z)) :
  StronglySorted Z.lt vals → StronglySorted lex_lt rest →
  StronglySorted lex_lt (concat (map (λ v, map (cons v) rest) vals)).
Proof.
  intros Hvals Hrest. induction Hvals as [|v vals _ IH Hv]; simpl; [constructor|].
  apply StronglySorted_app_2; [| |exact IH].
  - intros x y Hx Hy.
    apply list_elem_of_In, in_map_iff in Hx as (x' & <- & _).
    apply list_elem_of_In, in_concat in Hy as (block & Hblock & Hy).
    apply in_map_iff in Hblock as (w & <- & Hw).
    apply in_map_iff in Hy as (y' & <- & _).
    apply lex_lt_head. by apply (proj1 (List.Forall_forall _ _) Hv).
  - clear -Hrest. induction Hrest as [|x rest _ IH Hx]; simpl; constructor; [done|].
    apply List.Forall_forall. intros y Hy.
    apply in_map_iff in Hy as (y' & <- & Hy').
    apply lex_lt_tail. by apply (proj1 (List.Forall_forall _ _) Hx).
Qed.

Lemma glitch_values_sorted axes :
  Forall wf_axis axes → StronglySorted lex_lt (glitch_values axes).
Proof.
  induction 1 as [|a axes [Ha _] _ IH]; simpl.
  - repeat constructor.
  - apply product_sorted; [|done]. by apply axis_from_sorted.
Qed.

(** C2 (on the generator as the spec describes it): for a parameter space
    whose axes have a positive step and [low ≤ high], the sweep has exactly
    the product of the axis cardinalities [floor((high-low)/step) + 1] many
    settings, every setting gives each axis a value within its inclusive
    bounds, and the settings come in strictly increasing nested order, the
    first axis varying slowest; the space of glitch_101, width in [0,20]
    with step 8 and offset in [0,10] with step 1, has 3 * 11 = 33
    settings. *)
Theorem sweep_enumerates_product (axes : list GlitchParameter) :
  Forall wf_axis axes →
  Z.of_nat (length (glitch_values axes)) = trial_count axes
  ∧ (∀ gs, In gs (glitch_values axes) → Forall2 in_bounds axes gs)
  ∧ StronglySorted lex_lt (glitch_values axes)
  ∧ map axis_cardinality space_101 = [3; 11]
  ∧ length (glitch_values space_101) = 33%nat.
Proof.
  intros Hwf. split; [by apply glitch_values_length|].
  split; [intros gs; by apply glitch_values_bounds|].
  split; [by apply glitch_values_sorted|].
  split; reflexivity.
Qed.

Lemma sweep_enumerates_product_witness :
  Z.of_nat (length (glitch_values space_101)) = 33
  ∧ (∀ gs, In gs (glitch_values space_101) → Forall2 in_bounds space_101 gs)
  ∧ StronglySorted lex_lt (glitch_values space_101).
Proof.
  destruct (sweep_enumerates_product space_101) as (Hn & Hb & Hs & _).
  - repeat constructor; simpl; lia.
  - split; [exact Hn|]. split; [exact Hb | exact Hs].
Defined.

(** *** [OpenADC.default_setup] *)

(** A run of assignments overrides the settings it names and keeps the
    rest. *)
Lemma foldl_assign_union (l : list (string * Value)) (m : gmap string Value) :
  foldl assign m l = foldl assign ∅ l ∪ m.
Proof.
  induction l as [|[k v] l IH] using rev_ind; simpl.
  - by rewrite (left_id_L ∅ (∪)).
  - rewrite !foldl_app. simpl. unfold assign at 1 3. simpl.
    rewrite IH. by rewrite insert_union_l.
Qed.

Lemma foldl_assign_idemp (l : list (string * Value)) (m : gmap string Value) :
  foldl assign (foldl assign m l) l = foldl assign m l.
Proof.
  rewrite (foldl_assign_union l (foldl assign m l)), (foldl_assign_union l m).
  by rewrite (assoc_L (∪)), (idemp_L (∪)).
Qed.

Lemma foldl_assign_lookup l m k v :
  foldl assign ∅ l !! k = Some v → foldl assign m l !! k = Some v.
Proof. intros H. rewrite foldl_assign_union. by apply lookup_union_Some_l. Qed.

Lemma resets_app l1 l2 : resets (l1 ++ l2) = (resets l1 + resets l2)%nat.
Proof. unfold resets. by rewrite List.filter_app, length_app. Qed.

Lemma resets_snoc l c :
  resets (l ++ [c]) = (resets l + if is_reset c then 1 else 0)%nat.
Proof. rewrite resets_app. unfold resets. simpl. by destruct (is_reset c). Qed.

(** The reconnect block makes no [reset_dcms()] call and does not loop. *)
Lemma retry_reconnect_spec h s :
  resets (hw_log (final (retry_reconnect h s))) = resets (hw_log s)
  ∧ (∀ s', retry_reconnect h s ≠ Diverged s')
  ∧ (∀ u s', retry_reconnect h s = Ok u s' →
       ∃ m, settings s' = foldl assign m reapplied)
  ∧ (∀ dev, reconnect h = Done dev → ∃ s', retry_reconnect h s = Ok tt s').
Proof.
  destruct s as [c cs hk st adv dp cfg lg].
  unfold retry_reconnect, dis, con, setattrs, setattr. run.
  destruct st; cbn -[foldl reapplied husky_power_up resets];
    destruct (reconnect h) as [dev|e]; cbn -[foldl reapplied husky_power_up resets];
    try destruct (String.eqb (cwtype dev) "cwhusky");
    cbn -[foldl reapplied husky_power_up resets];
    rewrite ?resets_snoc; cbn -[foldl reapplied husky_power_up resets];
    (split; [lia|]; split; [done|]; split; [|intros; by eauto]);
    try done; intros u s' [= <- <-]; eexists; reflexivity.
Qed.

Lemma pll_loop_spec h fuel count s :
  (count ≤ 10)%nat →
  (11 - count ≤ fuel)%nat →
  let r := pll_loop h fuel count s in
  (∀ s', r ≠ Diverged s')
  ∧ (resets (hw_log (final r)) ≤ resets (hw_log s) + (11 - count))%nat
  ∧ settings (final r) = settings s
  ∧ ((∀ k, (count ≤ k < 11)%nat → clkgen_locked h k = false) →
     r = Raise pll_error (final r)
     ∧ resets (hw_log (final r)) = (resets (hw_log s) + (11 - count))%nat).
Proof.
  revert count s. induction fuel as [|fuel IH]; intros count s Hc Hf; [lia|].
  cbn -[Nat.ltb resets]. destruct (clkgen_locked h count) eqn:Hlock.
  - unfold ret. cbn -[resets]. split; [done|]. split; [lia|]. split; [done|].
    intros Hnever. rewrite Hnever in Hlock by lia. done.
  - unfold bind, hw, modify, perform, ret, raise. cbn -[Nat.ltb resets].
    destruct (Nat.ltb_spec 10 (S count)) as [Hlast|Hmore].
    + cbn -[resets]. rewrite resets_snoc. cbn -[resets].
      split; [done|]. split; [lia|]. split; [done|].
      intros _. split; [done|]. lia.
    + destruct (IH (S count) (log ResetDcms s)) as (Hd & Hr & Hs & Hn); [lia..|].
      cbn -[resets] in Hr, Hs, Hn. rewrite resets_snoc in Hr, Hn.
      cbn -[resets] in Hr, Hn.
      split; [done|]. split; [lia|]. split; [done|].
      intros Hnever. destruct Hn as [Hraise Hcount].
      { intros k Hk. apply Hnever. lia. }
      split; [done|]. lia.
Qed.

Lemma dcm_loop_S h fuel count s :
  dcm_loop h (S fuel) count s =
    if clkgen_locked h count then Ok tt s
    else
      match (if (S count =? 5)%nat then retry_reconnect h else ret tt)
              (log (Sleep 50) (log ResetDcms s)) with
      | Ok _ s' =>
          if (10 <? S count)%nat then Raise dcm_error s'
          else dcm_loop h fuel (S count) s'
      | Raise e s' => Raise e s'
      | Diverged s' => Diverged s'
      end.
Proof.
  cbn -[Nat.ltb Nat.eqb retry_reconnect].
  destruct (clkgen_locked h count); [done|].
  unfold bind, hw, modify, perform, ret, raise.
  cbn -[Nat.ltb Nat.eqb retry_reconnect].
  destruct (if (S count =? 5)%nat then _ else _); [|done|done].
  by destruct (10 <? S count)%nat.
Qed.

Lemma resets_after_reset s :
  resets (hw_log (log (Sleep 50) (log ResetDcms s))) = S (resets (hw_log s)).
Proof. cbn -[resets]. rewrite !resets_snoc. simpl. lia. Qed.

Lemma dcm_loop_spec h fuel count s :
  (count ≤ 10)%nat →
  (11 - count ≤ fuel)%nat →
  let r := dcm_loop h fuel count s in
  (∀ s', r ≠ Diverged s')
  ∧ (resets (hw_log (final r)) ≤ resets (hw_log s) + (11 - count))%nat
  ∧ (∀ u s', r = Ok u s' →
       settings s' = settings s ∨ ∃ m, settings s' = foldl assign m reapplied)
  ∧ ((∀ k, (count ≤ k < 11)%nat → clkgen_locked h k = false) →
     (5 ≤ count)%nat ∨ (∃ dev, reconnect h = Done dev) →
     r = Raise dcm_error (final r)
     ∧ resets (hw_log (final r)) = (resets (hw_log s) + (11 - count))%nat).
Proof.
  revert count s. induction fuel as [|fuel IH]; intros count s Hc Hf; [lia|].
  cbv zeta. rewrite dcm_loop_S.
  destruct (clkgen_locked h count) eqn:Hlock.
  - cbn -[resets foldl reapplied]. split; [done|]. split; [lia|]. split.
    { intros u s' [= _ <-]. by left. }
    intros Hnever. rewrite Hnever in Hlock by lia. done.
  - pose proof (resets_after_reset s) as HsA.
    assert (HsetA : settings (log (Sleep 50) (log ResetDcms s)) = settings s)
      by done.
    remember (log (Sleep 50) (log ResetDcms s)) as sA eqn:EsA. clear EsA.
    destruct (Nat.eqb_spec (S count) 5) as [H5|H5].
    + destruct (retry_reconnect_spec h sA) as (Hres & Hdiv & Hset & Hok).
      destruct (retry_reconnect h sA) as [u sB|e sB|sB] eqn:Hrr.
      * cbn -[resets] in Hres. destruct (Nat.ltb_spec 10 (S count)) as [|_]; [lia|].
        destruct (IH (S count) sB) as (Hd & Hr & Hs & Hn); [lia..|].
        cbv zeta in Hd, Hr, Hs, Hn.
        split; [done|]. split; [lia|]. split.
        { intros u' s' Hfin. right.
          destruct (Hset u sB eq_refl) as [m Hm].
          destruct (Hs u' s' Hfin) as [Heq | Hagain]; [|done].
          exists m. congruence. }
        intros Hnever _. destruct Hn as [Hraise Hcount].
        { intros k Hk. apply Hnever. lia. }
        { left. lia. }
        split; [done|]. lia.
      * cbn -[resets] in Hres. cbn -[resets].
        split; [done|]. split; [lia|]. split; [done|].
        intros _ [Hge | [dev Hdev]]; [lia|].
        destruct (Hok dev Hdev) as [s' Hs']. congruence.
      * by destruct (Hdiv sB).
    + unfold ret. cbv beta iota.
      destruct (Nat.ltb_spec 10 (S count)) as [Hlast|Hmore].
      * cbn -[resets foldl reapplied]. split; [done|]. split; [lia|]. split; [done|].
        intros _ _. split; [done|]. lia.
      * destruct (IH (S count) sA) as (Hd & Hr & Hs & Hn); [lia..|].
        cbv zeta in Hd, Hr, Hs, Hn.
        split; [done|]. split; [lia|]. split.
        { intros u' s' Hfin. destruct (Hs u' s' Hfin) as [Heq | Hagain];
            [left; congruence | by right]. }
        intros Hnever Hrec. destruct Hn as [Hraise Hcount].
        { intros k Hk. apply Hnever. lia. }
        { destruct Hrec as [Hge | Hdev]; [left; lia | by right]. }
        split; [done|]. lia.
Qed.

(** With a clock that locks before the fifth reset the loop only resets
    and waits. *)
Lemma dcm_loop_quick h fuel count k s u s' :
  (count ≤ k < 5)%nat → clkgen_locked h k = true →
  dcm_loop h fuel count s = Ok u s' →
  settings s' = settings s ∧ _is_husky s' = _is_husky s.
Proof.
  revert count s. induction fuel as [|fuel IH]; intros count s Hk Hlock; [done|].
  rewrite dcm_loop_S. destruct (clkgen_locked h count) eqn:Hc.
  - by intros [= _ <-].
  - assert (count ≠ k) by congruence.
    destruct (Nat.eqb_spec (S count) 5) as [|_]; [lia|].
    unfold ret. cbv beta iota.
    destruct (Nat.ltb_spec 10 (S count)) as [|_]; [lia|].
    intros Hloop. apply IH in Hloop; [|lia|done]. done.
Qed.

Lemma quick_lock_inv h :
  quick_lock h = true → ∃ k, (0 ≤ k < 5)%nat ∧ clkgen_locked h k = true.
Proof.
  unfold quick_lock. simpl. intros H.
  repeat (apply orb_true_iff in H as [H|H]; [eexists; split; [|exact H]; lia|]).
  done.
Qed.

Lemma pll_loop_settings h fuel count s :
  settings (final (pll_loop h fuel count s)) = settings s
  ∧ _is_husky (final (pll_loop h fuel count s)) = _is_husky s.
Proof.
  revert count s. induction fuel as [|fuel IH]; intros count s; [done|].
  cbn -[Nat.ltb]. destruct (clkgen_locked h count); [done|].
  unfold bind, hw, modify, perform, ret, raise. cbn -[Nat.ltb].
  destruct (10 <? S count)%nat; [done|].
  destruct (IH (S count) (log ResetDcms s)) as [-> ->]. done.
Qed.

Lemma dcm_loop_settings h fuel count s u s' :
  dcm_loop h fuel count s = Ok u s' →
  settings s' = settings s ∨ ∃ m, settings s' = foldl assign m reapplied.
Proof.
  revert count s. induction fuel as [|fuel IH]; intros count s; [done|].
  rewrite dcm_loop_S. destruct (clkgen_locked h count).
  { intros [= _ <-]. by left. }
  destruct (S count =? 5)%nat.
  - destruct (retry_reconnect_spec h (log (Sleep 50) (log ResetDcms s)))
      as (_ & _ & Hset & _).
    destruct (retry_reconnect h _) as [u' sB|e sB|sB]; [|done|done].
    destruct (10 <? S count)%nat; [done|].
    intros Hloop. right. destruct (Hset u' sB eq_refl) as [m Hm].
    apply IH in Hloop as [Heq | Hagain]; [|done]. exists m. congruence.
  - unfold ret. cbv beta iota. destruct (10 <? S count)%nat; [done|].
    intros Hloop. apply IH in Hloop as [Heq | Hagain]; [by left | by right].
Qed.

Lemma default_setup_no_reconnect h fuel s u s1 :
  no_reconnect h s →
  default_setup h fuel s = Ok u s1 →
  settings s1 = foldl assign (settings s) (setup_table s)
  ∧ _is_husky s1 = _is_husky s.
Proof.
  intros Hno. unfold default_setup, setup_table, setattrs, setattr.
  unfold bind, gets, modify. cbn -[foldl baseline husky_clock husky_power_up].
  destruct (_is_husky s) eqn:Hhusky.
  - destruct (pll_loop_settings h fuel 0
                (set_settings (λ m, foldl assign m husky_clock)
                   (set_settings (λ m, foldl assign m baseline) s))) as [Hs Hh].
    destruct (pll_loop h fuel 0 _) as [u' sB|e sB|sB]; [|done|done].
    intros [= _ <-]. cbn -[foldl baseline husky_clock husky_power_up] in *.
    rewrite Hs, Hh, !foldl_app. done.
  - destruct Hno as [Hno | Hquick]; [congruence|].
    destruct (quick_lock_inv h Hquick) as (k & Hk & Hlock).
    intros Hloop. apply (dcm_loop_quick _ _ _ k) in Hloop as [Hs Hh]; [|done..].
    cbn -[foldl baseline] in Hs, Hh. rewrite Hs, Hh, foldl_app. done.
Qed.

Lemma keeps_baseline_tables :
  keeps_baseline (baseline ++ husky_clock ++ husky_power_up)
  ∧ keeps_baseline (baseline ++ [("clock.adc_src", VStr "clkgen_x4")])
  ∧ keeps_baseline reapplied.
Proof.
  unfold keeps_baseline.
  repeat split;
    repeat (apply List.Forall_cons;
            [first [right; vm_compute; reflexivity | left; reflexivity]|]);
    apply List.Forall_nil.
Qed.

Lemma keeps_baseline_lookup table m k v :
  keeps_baseline table → In (k, v) baseline → k ≠ "io.cdc_settings" →
  foldl assign m table !! k = Some v.
Proof.
  intros Hkeep Hin Hk. apply foldl_assign_lookup.
  destruct (proj1 (List.Forall_forall _ _) Hkeep (k, v) Hin) as [|]; done.
Qed.

Lemma default_setup_baseline h fuel s u s1 k v :
  default_setup h fuel s = Ok u s1 →
  In (k, v) baseline → k ≠ "io.cdc_settings" →
  settings s1 !! k = Some v.
Proof.
  intros Hrun Hin Hk.
  destruct keeps_baseline_tables as (Hhusky & Hother & Hagain).
  destruct (_is_husky s) eqn:Hh.
  - apply default_setup_no_reconnect in Hrun as [-> _]; [|by left].
    unfold setup_table. rewrite Hh. by apply keeps_baseline_lookup.
  - revert Hrun. unfold default_setup, setattrs, setattr.
    unfold bind, gets, modify. cbn -[foldl baseline]. rewrite Hh.
    intros Hloop. apply dcm_loop_settings in Hloop as [Heq | [m Hm]].
    + rewrite Heq. cbn -[foldl baseline].
      change (<["clock.adc_src" := VStr "clkgen_x4"]> (foldl assign (settings s) baseline))
        with (foldl assign (foldl assign (settings s) baseline)
                [("clock.adc_src", VStr "clkgen_x4")]).
      rewrite <- foldl_app. by apply keeps_baseline_lookup.
    + rewrite Hm. by apply keeps_baseline_lookup.
Qed.

Lemma default_setup_bounded h fuel s :
  (11 ≤ fuel)%nat →
  let r := default_setup h fuel s in
  (∀ s', r ≠ Diverged s')
  ∧ (resets (hw_log (final r)) ≤ resets (hw_log s) + 11)%nat
  ∧ ((∀ k, (k < 11)%nat → clkgen_locked h k = false) →
     _is_husky s = true ∨ (∃ dev, reconnect h = Done dev) →
     r = Raise (if _is_husky s then pll_error else dcm_error) (final r)
     ∧ resets (hw_log (final r)) = (resets (hw_log s) + 11)%nat).
Proof.
  intros Hfuel. unfold default_setup, setattrs, setattr.
  unfold bind, gets, modify.
  cbn -[foldl baseline husky_clock husky_power_up resets].
  destruct (_is_husky s) eqn:Hh.
  - destruct (pll_loop_spec h fuel 0
                (set_settings (λ m, foldl assign m husky_clock)
                   (set_settings (λ m, foldl assign m baseline) s)))
      as (Hd & Hr & _ & Hn); [lia..|].
    cbv zeta in Hd, Hr, Hn.
    cbn -[foldl baseline husky_clock husky_power_up resets pll_loop] in Hr, Hn.
    destruct (pll_loop h fuel 0 _) as [u' sB|e sB|sB] eqn:Hloop.
    + cbn -[foldl baseline husky_clock husky_power_up resets] in *.
      split; [done|]. split; [lia|].
      intros Hnever _. destruct Hn as [Hraise _]; [|done].
      intros k Hk. apply Hnever. lia.
    + cbn -[resets] in *. split; [done|]. split; [lia|].
      intros Hnever _. destruct Hn as [Hraise Hcount].
      { intros k Hk. apply Hnever. lia. }
      injection Hraise as ->. split; [done|]. lia.
    + by destruct (Hd sB).
  - destruct (dcm_loop_spec h fuel 0
                (set_settings <["clock.adc_src" := VStr "clkgen_x4"]>
                   (set_settings (λ m, foldl assign m baseline) s)))
      as (Hd & Hr & _ & Hn); [lia..|].
    cbv zeta in Hd, Hr, Hn.
    cbn -[foldl baseline resets dcm_loop] in Hr, Hn.
    split; [done|]. split; [lia|].
    intros Hnever [Hhusky | Hdev]; [done|].
    destruct Hn as [Hraise Hcount]; [|by right|].
    { intros k Hk. apply Hnever. lia. }
    split; [done|]. lia.
Qed.

(** C8, as the code has it: [default_setup()] is idempotent across calls
    that do not take the reconnect-and-retry path (always so on a Husky,
    and on the other devices when the clock locks before the fifth reset):
    the second of two such calls in a row leaves every setting as the first
    left it.  After every call that returns, the baseline settings other
    than [io.cdc_settings] read back their baseline values.  The lock loop
    ends: a call makes at most 11 [reset_dcms()] calls, and when the clock
    is still unlocked at the eleventh read it raises the "Could not lock"
    [OSError] after exactly 11 of them. *)
Theorem default_setup_idempotent_bounded :
  (∀ h1 h2 fuel1 fuel2 s s1 s2,
     default_setup h1 fuel1 s = Ok tt s1 → no_reconnect h1 s →
     default_setup h2 fuel2 s1 = Ok tt s2 → no_reconnect h2 s1 →
     settings s2 = settings s1)
  ∧ (∀ h fuel s s1 k v,
       default_setup h fuel s = Ok tt s1 →
       In (k, v) baseline → k ≠ "io.cdc_settings" →
       settings s1 !! k = Some v)
  ∧ (∀ h fuel s,
       (11 ≤ fuel)%nat →
       (∀ s', default_setup h fuel s ≠ Diverged s')
       ∧ (resets (hw_log (final (default_setup h fuel s)))
          ≤ resets (hw_log s) + 11)%nat)
  ∧ (∀ h fuel s,
       (11 ≤ fuel)%nat →
       (∀ k, (k < 11)%nat → clkgen_locked h k = false) →
       _is_husky s = true ∨ (∃ dev, reconnect h = Done dev) →
       ∃ s', default_setup h fuel s
             = Raise (if _is_husky s then pll_error else dcm_error) s'
             ∧ resets (hw_log s') = (resets (hw_log s) + 11)%nat).
Proof.
  split; [|split; [|split]].
  - intros h1 h2 fuel1 fuel2 s s1 s2 H1 Hno1 H2 Hno2.
    apply default_setup_no_reconnect in H1 as [Hs1 Hh1]; [|done].
    apply default_setup_no_reconnect in H2 as [Hs2 _]; [|done].
    rewrite Hs2. unfold setup_table. rewrite Hh1.
    fold (setup_table s). rewrite Hs1. apply foldl_assign_idemp.
  - intros h fuel s s1 k v. apply default_setup_baseline.
  - intros h fuel s Hfuel.
    destruct (default_setup_bounded h fuel s Hfuel) as (Hd & Hr & _). done.
  - intros h fuel s Hfuel Hnever Hrec.
    destruct (default_setup_bounded h fuel s Hfuel) as (_ & _ & Hn).
    destruct (Hn Hnever Hrec) as [Hraise Hcount]. eauto.
Qed.

Lemma default_setup_idempotent_bounded_witness :
  settings (final (default_setup (mkSetupIO (locks_at 0) (Done lite_device)) 11
                     after_first_setup))
  = settings after_first_setup
  ∧ (∃ s', default_setup (mkSetupIO (locks_at 11) (Done lite_device)) 11 lite_repeat10
           = Raise dcm_error s'
           ∧ resets (hw_log s') = 11%nat).
Proof.
  split.
  - apply (proj1 default_setup_idempotent_bounded
             (mkSetupIO (locks_at 0) (Done lite_device))
             (mkSetupIO (locks_at 0) (Done lite_device)) 11%nat 11%nat
             lite_repeat10 after_first_setup
             (final (default_setup (mkSetupIO (locks_at 0) (Done lite_device)) 11
                       after_first_setup)));
      (reflexivity || (right; reflexivity)).
  - apply (proj2 (proj2 (proj2 default_setup_idempotent_bounded))
             (mkSetupIO (locks_at 11) (Done lite_device)) 11%nat lite_repeat10).
    + lia.
    + intros k Hk. change (locks_at 11 k = false). unfold locks_at.
      apply Nat.leb_gt. lia.
    + right. by exists lite_device.
Defined.

(** C8 as stated fails: a second call in a row whose clock needs six resets
    reconnects on the way, which returns the settings to what the device
    reads after its reset; [glitch.repeat], 10 after the first call, reads 1
    after the second. *)
Lemma default_setup_not_idempotent_after_reconnect :
  returned (default_setup (mkSetupIO (locks_at 0) (Done lite_device)) 11 lite_repeat10)
    = Some tt
  ∧ returned (default_setup (mkSetupIO (locks_at 6) (Done lite_device)) 11
                after_first_setup)
    = Some tt
  ∧ settings after_first_setup !! "glitch.repeat" = Some (VNum 10)
  ∧ settings (final (default_setup (mkSetupIO (locks_at 6) (Done lite_device)) 11
                       after_first_setup)) !! "glitch.repeat"
    = Some (VNum 1).
Proof. repeat split; reflexivity. Qed.

(** ** Further results *)

(** *** Connecting and disconnecting *)

(** X1 (OpenADC.py [dis], lines 421-446): [dis()] always returns [True] and leaves the scope disconnected, with its
    settings, its last trace and its Husky flag as they were; a second
    [dis()] changes nothing but repeats the transport's own [dis()]; and
    [arm()] on the disconnected scope raises the "not connected" [OSError]
    without a call to the hardware. *)
Theorem dis_disconnects (s : OpenADC) :
  ∃ s1, dis s = Ok true s1
        ∧ _is_connected s1 = false ∧ connectStatus s1 = false
        ∧ settings s1 = settings s ∧ data_points s1 = data_points s
        ∧ _is_husky s1 = _is_husky s ∧ scopetype s1 = scopetype s
        ∧ (scopetype s = true → advancedSettings s1 = false)
        ∧ dis s1 = Ok true (if scopetype s then log ScopetypeDis s1 else s1)
        ∧ ∀ h, arm h s1 = Raise not_connected s1.
Proof.
  destruct s as [c cs hk st adv dp cfg lg].
  unfold dis. run. destruct st; simpl; eexists; (split; [reflexivity|]);
    simpl; repeat split; try done.
Qed.

Lemma dis_disconnects_witness :
  ∃ s1, dis lite_scope = Ok true s1
        ∧ _is_connected s1 = false ∧ advancedSettings s1 = false
        ∧ dis s1 = Ok true (log ScopetypeDis s1).
Proof.
  destruct (dis_disconnects lite_scope)
    as (s1 & Hrun & Hc & _ & _ & _ & _ & _ & Hadv & Hagain & _).
  exists s1. split; [exact Hrun|]. split; [exact Hc|].
  split; [exact (Hadv eq_refl) | exact Hagain].
Defined.

(** X2 (OpenADC.py [con], lines 314-419): [con()] that finds a device returns [True] with the scope connected,
    its extra modules present, its settings those the device reads back
    after the reset (with the Husky power-up values forced on a Husky) and
    the last trace kept; the Husky flag is set for a Husky and is never
    cleared, so it stays set when a scope object that was a Husky connects
    to another device.  [con()] whose transport raises passes the exception
    on with the connection flags and the settings as they were. *)
Theorem con_outcomes (s : OpenADC) :
  (∀ dev,
     ∃ s', con (Done dev) s = Ok true s'
           ∧ _is_connected s' = true ∧ connectStatus s' = true
           ∧ scopetype s' = true ∧ advancedSettings s' = true
           ∧ data_points s' = data_points s
           ∧ _is_husky s' = (_is_husky s || String.eqb (cwtype dev) "cwhusky")
           ∧ settings s'
             = (if String.eqb (cwtype dev) "cwhusky"
                then foldl assign (<["adc.bits_per_sample" := VNum 12]> (power_on dev))
                       husky_power_up
                else power_on dev)
           ∧ hw_log s' = hw_log s ++ [ScopetypeCon])
  ∧ (∀ e,
       ∃ s', con (Fails e) s = Raise e s'
             ∧ _is_connected s' = _is_connected s
             ∧ connectStatus s' = connectStatus s
             ∧ settings s' = settings s
             ∧ scopetype s' = true).
Proof.
  destruct s as [c cs hk st adv dp cfg lg]. split.
  - intros dev. unfold con, setattrs, setattr. run.
    destruct (String.eqb (cwtype dev) "cwhusky"); simpl;
      eexists; (split; [reflexivity|]); simpl; repeat split; try done.
    + by rewrite orb_true_r.
    + by rewrite orb_false_r.
  - intros e. unfold con. run. eexists. split; [reflexivity|]. done.
Qed.

(** X3 (OpenADC.py [dis], [con] and [arm]): Disconnecting and connecting again makes a scope that arms, whatever
    state it was in. *)
Theorem dis_con_arm (s : OpenADC) (dev : Device) :
  ∃ s1 s2 s3,
    dis s = Ok true s1 ∧ con (Done dev) s1 = Ok true s2
    ∧ arm arm_ok s2 = Ok tt s3 ∧ _is_connected s3 = true.
Proof.
  destruct s as [c cs hk st adv dp cfg lg].
  unfold dis, con, arm, try_except_reraise, setattrs, setattr. run.
  destruct st; simpl;
    destruct (String.eqb (cwtype dev) "cwhusky"); simpl;
    try destruct hk; simpl;
    do 3 eexists; repeat split.
Qed.

(** *** Arming *)

(** X4 (OpenADC.py [arm], lines 448-477, and [dcmTimeout], lines 244-250): After an [arm()] that failed on a hardware call the scope keeps its
    settings and its last trace but is disconnected: the next [arm()] raises
    the "not connected" [OSError], and [dcmTimeout()] does nothing, until the
    scope is connected again. *)
Theorem arm_failure_needs_reconnect (h : ArmIO) (s : OpenADC) (e : exn) :
  _is_connected s = true →
  arm_failure h s = Some e →
  ∃ s', arm h s = Raise e s'
        ∧ settings s' = settings s ∧ data_points s' = data_points s
        ∧ (∀ h', arm h' s' = Raise not_connected s')
        ∧ (∀ status, dcmTimeout status s' = Ok tt s').
Proof.
  destruct s as [c cs hk st adv dp cfg lg], h as [h1 h2 h3 h4 h5].
  unfold arm, arm_failure, dcmTimeout, try_except_reraise, dis. run.
  intros -> He.
  destruct adv; simpl in *;
    [|injection He as <-; destruct st; simpl; eexists; by repeat split].
  destruct h1 as [[]|e1]; simpl in *;
    [|injection He as <-; destruct st; simpl; eexists; by repeat split].
  destruct h2 as [[]|e2]; simpl in *;
    [|injection He as <-; destruct st; simpl; eexists; by repeat split].
  destruct h3 as [[]|e3]; simpl in *;
    [|injection He as <-; destruct st; simpl; eexists; by repeat split].
  destruct hk; simpl in *.
  - destruct h4 as [[]|e4]; simpl in *;
      [|injection He as <-; destruct st; simpl; eexists; by repeat split].
    destruct h5 as [[]|e5]; simpl in *; [done|].
    injection He as <-; destruct st; simpl; eexists; by repeat split.
  - destruct h5 as [[]|e5]; simpl in *; [done|].
    injection He as <-; destruct st; simpl; eexists; by repeat split.
Qed.

Lemma arm_failure_needs_reconnect_witness :
  ∃ s', arm (mkArmIO (Done tt) (Done tt) (Done tt) (Done tt) (Fails (HwError "usb")))
            lite_scope = Raise (HwError "usb") s'
        ∧ settings s' = settings lite_scope ∧ data_points s' = data_points lite_scope
        ∧ (∀ h', arm h' s' = Raise not_connected s')
        ∧ (∀ status, dcmTimeout status s' = Ok tt s').
Proof.
  apply (arm_failure_needs_reconnect
           (mkArmIO (Done tt) (Done tt) (Done tt) (Done tt) (Fails (HwError "usb")))
           lite_scope (HwError "usb")); reflexivity.
Defined.

(** X5 (OpenADC.py [arm], lines 448-477): The hardware calls of [arm()] on a connected scope are made in one
    order: pre-scope, arm, post-scope, the cache update on a Husky, the
    capture thread.  When [arm()] returns all of them were made and nothing
    else changed; when it raises, a nonempty initial part of them was made,
    followed by the transport's [dis()]: no call follows the one that
    raised, and the capture thread is never started after a failure. *)
Theorem arm_call_order (h : ArmIO) (s : OpenADC) :
  _is_connected s = true →
  advancedSettings s = true →
  match arm h s with
  | Ok _ s' =>
      hw_log s' = hw_log s ++ arm_calls s
      ∧ settings s' = settings s ∧ data_points s' = data_points s
      ∧ _is_connected s' = true
  | Raise e s' =>
      ∃ made, made `prefix_of` arm_calls s ∧ made ≠ []
              ∧ hw_log s' = hw_log s ++ made
                              ++ (if scopetype s then [ScopetypeDis] else [])
              ∧ arm_failure h s = Some e
  | Diverged _ => False
  end.
Proof.
  destruct s as [c cs hk st adv dp cfg lg], h as [h1 h2 h3 h4 h5].
  unfold arm, arm_failure, arm_calls, try_except_reraise, dis. run.
  intros -> ->. simpl.
  assert (Hpre : ∀ (made rest : list HwCall), made `prefix_of` made ++ rest)
    by (intros made rest; by exists rest).
  destruct st, hk; simpl;
    (destruct h1 as [[]|e1]; simpl;
     [|exists [ArmPreScope]; rewrite <- ?app_assoc; simpl;
       split; [apply (Hpre [_])|done]]);
    (destruct h2 as [[]|e2]; simpl;
     [|exists [ArmPreScope; ScArm]; rewrite <- ?app_assoc; simpl;
       split; [apply (Hpre [_; _])|done]]);
    (destruct h3 as [[]|e3]; simpl;
     [|exists [ArmPreScope; ScArm; ArmPostScope]; rewrite <- ?app_assoc; simpl;
       split; [apply (Hpre [_; _; _])|done]]).
  - destruct h4 as [[]|e4]; simpl;
      [|exists [ArmPreScope; ScArm; ArmPostScope; AdcUpdateCaches];
        rewrite <- ?app_assoc; simpl; split; [apply (Hpre [_; _; _; _])|done]].
    destruct h5 as [[]|e5]; simpl; [by rewrite <- !app_assoc|].
    exists [ArmPreScope; ScArm; ArmPostScope; AdcUpdateCaches; StartCaptureThread].
    rewrite <- ?app_assoc; simpl. split; [by exists []|done].
  - destruct h5 as [[]|e5]; simpl; [by rewrite <- !app_assoc|].
    exists [ArmPreScope; ScArm; ArmPostScope; StartCaptureThread].
    rewrite <- ?app_assoc; simpl. split; [by exists []|done].
  - destruct h4 as [[]|e4]; simpl;
      [|exists [ArmPreScope; ScArm; ArmPostScope; AdcUpdateCaches];
        rewrite <- ?app_assoc; simpl; split; [apply (Hpre [_; _; _; _])|done]].
    destruct h5 as [[]|e5]; simpl; [by rewrite <- !app_assoc|].
    exists [ArmPreScope; ScArm; ArmPostScope; AdcUpdateCaches; StartCaptureThread].
    rewrite <- ?app_assoc; simpl. split; [by exists []|done].
  - destruct h5 as [[]|e5]; simpl; [by rewrite <- !app_assoc|].
    exists [ArmPreScope; ScArm; ArmPostScope; StartCaptureThread].
    rewrite <- ?app_assoc; simpl. split; [by exists []|done].
Qed.

Lemma arm_call_order_witness :
  ∃ made, made `prefix_of` arm_calls lite_scope ∧ made ≠ []
          ∧ hw_log (final (arm (mkArmIO (Done tt) (Fails (HwError "usb")) (Done tt)
                                  (Done tt) (Done tt)) lite_scope))
            = hw_log lite_scope ++ made ++ [ScopetypeDis]
          ∧ arm_failure (mkArmIO (Done tt) (Fails (HwError "usb")) (Done tt)
                           (Done tt) (Done tt)) lite_scope
            = Some (HwError "usb").
Proof.
  exact (arm_call_order
           (mkArmIO (Done tt) (Fails (HwError "usb")) (Done tt) (Done tt) (Done tt))
           lite_scope eq_refl eq_refl).
Defined.

(** *** Capturing *)

(** X6 (OpenADC.py [capture], lines 493-533, and [_capture_read], lines 479-490): An exception of [sc.capture] or of [sc.readData] leaves [capture()] as
    it is, with the scope still connected and the last trace still in
    place; [sc.readData] is not called after [sc.capture] raised.  Unlike
    [arm()], [capture()] never disconnects. *)
Theorem capture_failure_keeps_trace (s : OpenADC) (e : exn) :
  capture_checks s = None →
  (∀ rd, ∃ s', capture (mkCaptureIO (Fails e) rd) s = Raise e s'
               ∧ get_last_trace s' = get_last_trace s
               ∧ _is_connected s' = _is_connected s
               ∧ (∃ streaming, hw_log s' = hw_log s ++ [ScCapture streaming]))
  ∧ (∀ a, ∃ s', capture (mkCaptureIO (Done a) (Fails e)) s = Raise e s'
                ∧ get_last_trace s' = get_last_trace s
                ∧ _is_connected s' = _is_connected s).
Proof.
  intros Hchk. unfold capture, _capture_read. run. rewrite Hchk. simpl.
  split; intros; eexists; (split; [reflexivity|]); simpl; eauto.
Qed.

Lemma capture_failure_keeps_trace_witness :
  ∃ s', capture (mkCaptureIO (Done false) (Fails (HwError "usb")))
          (set_data_points (Some [7; 8; 9]) lite_scope) = Raise (HwError "usb") s'
        ∧ get_last_trace s' = Some [7; 8; 9]
        ∧ _is_connected s' = true.
Proof.
  apply (proj2 (capture_failure_keeps_trace
                  (set_data_points (Some [7; 8; 9]) lite_scope) (HwError "usb")
                  eq_refl) false).
Defined.

(** X7 (OpenADC.py [_capture_read], lines 479-490): When [sc.readData] hands back [None], [capture()] raises [TypeError]
    (the length is taken before the test for [None]) and the last trace is
    gone: [get_last_trace()] returns [None] afterwards. *)
Theorem capture_none_data_raises (s : OpenADC) (a : bool) :
  capture_checks s = None →
  ∃ msg s', capture (mkCaptureIO (Done a) (Done None)) s = Raise (TypeError msg) s'
            ∧ get_last_trace s' = None
            ∧ _is_connected s' = _is_connected s.
Proof.
  intros Hchk. unfold capture, _capture_read. run. rewrite Hchk. simpl.
  do 2 eexists. split; [reflexivity|]. done.
Qed.

Lemma capture_none_data_raises_witness :
  ∃ msg s', capture (mkCaptureIO (Done false) (Done None))
              (set_data_points (Some [7; 8; 9]) lite_scope) = Raise (TypeError msg) s'
            ∧ get_last_trace s' = None
            ∧ _is_connected s' = true.
Proof.
  apply (capture_none_data_raises (set_data_points (Some [7; 8; 9]) lite_scope) false).
  reflexivity.
Defined.

(** X8 (OpenADC.py [capture], lines 512-519): The argument checks of [capture()] concern the Husky only and come
    before any call to the hardware: on another device [capture()] never
    refuses its settings, and on a Husky with more than one segment,
    presamples and a number of samples that is not a multiple of 3 it raises
    [ValueError] with the scope object untouched. *)
Theorem capture_checks_husky_only (s : OpenADC) (h : CaptureIO) :
  (_is_husky s = false → capture_checks s = None)
  ∧ (_is_husky s = true →
     1 < num "adc.segments" s →
     truthy "adc.presamples" s = true →
     num "adc.samples" s `mod` 3 ≠ 0 →
     ∃ msg, capture h s = Raise (ValueError msg) s).
Proof.
  split.
  - intros Hh. unfold capture_checks. by rewrite Hh.
  - intros Hh Hseg Hpre Hmod. unfold capture, capture_checks. run.
    rewrite Hh, Hpre. simpl.
    rewrite (proj2 (Z.ltb_lt _ _) Hseg). simpl.
    rewrite (proj2 (Z.eqb_neq _ _) Hmod). simpl. eauto.
Qed.

Lemma capture_checks_husky_only_witness :
  ∃ msg,
    capture (mkCaptureIO (Done false) (Done (Some []))) husky_segments_scope
    = Raise (ValueError msg) husky_segments_scope.
Proof.
  apply (proj2 (capture_checks_husky_only husky_segments_scope
                  (mkCaptureIO (Done false) (Done (Some [])))));
    [reflexivity | reflexivity | reflexivity |].
  vm_compute. discriminate.
Defined.

(** X9 (OpenADC.py [capture_segmented], lines 562-590): [capture_segmented()] touches the hardware only in ['segment'] FIFO
    mode and raises [OSError] otherwise; in that mode it reads 256 samples
    fewer than the FIFO holds and returns [False] exactly when the trigger
    did not time out and that many samples came back, leaving them as the
    last trace. *)
Theorem capture_segmented_outcome (s : OpenADC) (h : CaptureIO) :
  (settings s !! "adc.fifo_fill_mode" ≠ Some (VStr "segment") →
   ∃ msg, capture_segmented h s = Raise (OSError msg) s)
  ∧ (settings s !! "adc.fifo_fill_mode" = Some (VStr "segment") →
     ∀ a d, h = mkCaptureIO (Done a) (Done (Some d)) →
       ∃ r s', capture_segmented h s = Ok r s'
               ∧ (r = false ↔
                  a = false
                  ∧ Z.of_nat (length d) = num "adc.oa.hwMaxSamples" s - 256)
               ∧ get_last_trace s' = Some d
               ∧ hw_log s' = hw_log s
                             ++ [ScCapture false;
                                 ScReadData (num "adc.oa.hwMaxSamples" s - 256)]
               ∧ _is_connected s' = _is_connected s).
Proof.
  unfold capture_segmented, _capture_read. run. split.
  - intros Hmode. rewrite bool_decide_eq_false_2 by done. simpl. eauto.
  - intros Hmode a d ->. rewrite bool_decide_eq_true_2 by done. simpl.
    do 2 eexists. split; [reflexivity|]. simpl.
    split; [|by rewrite <- app_assoc].
    destruct a; simpl; [split; [done|by intros []]|].
    rewrite negb_false_iff, Z.eqb_eq. tauto.
Qed.

Lemma capture_segmented_outcome_witness :
  (∃ msg, capture_segmented (mkCaptureIO (Done false) (Done (Some [7; 8; 9]))) lite_scope
          = Raise (OSError msg) lite_scope)
  ∧ (∃ r s',
       capture_segmented (mkCaptureIO (Done false) (Done (Some [7; 8; 9]))) segment_scope
       = Ok r s'
       ∧ (r = false ↔ false = false ∧ 3 = 259 - 256)).
Proof.
  split.
  - apply (proj1 (capture_segmented_outcome lite_scope
                    (mkCaptureIO (Done false) (Done (Some [7; 8; 9]))))).
    vm_compute. discriminate.
  - assert (Hmode : settings segment_scope !! "adc.fifo_fill_mode"
                    = Some (VStr "segment")) by reflexivity.
    destruct (proj2 (capture_segmented_outcome segment_scope
                       (mkCaptureIO (Done false) (Done (Some [7; 8; 9]))))
                Hmode false [7; 8; 9] eq_refl) as (r & s' & Hrun & Hr & _).
    exists r, s'. split; [exact Hrun | exact Hr].
Defined.

(** *** Segmented traces *)

Lemma rows_spec (num_seg seg_len : nat) (data : list Z) :
  (num_seg * seg_len ≤ length data)%nat →
  length (rows num_seg seg_len data) = num_seg
  ∧ Forall (λ t, length t = seg_len) (rows num_seg seg_len data)
  ∧ concat (rows num_seg seg_len data) = take (num_seg * seg_len) data.
Proof.
  revert data. induction num_seg as [|n IH]; intros data Hlen; simpl.
  - by rewrite take_0.
  - destruct (IH (drop seg_len data)) as (Hn & Hall & Hcat).
    { rewrite length_drop. simpl in Hlen. lia. }
    split; [by rewrite Hn|]. split.
    + constructor; [|done]. rewrite length_take. simpl in Hlen. lia.
    + rewrite Hcat. apply take_take_drop.
Qed.

(** X10 (OpenADC.py [get_last_trace_segmented], lines 592-607): [get_last_trace_segmented()] cuts the last trace into traces of
    [scope.adc.samples - 1] samples each, as many as fit, in order and
    without gaps; the samples left over at the end, fewer than one trace,
    are dropped.  On a scope object that has captured nothing, whose
    [data_points] is still the empty list of [__init__], the result has no
    rows.  With [scope.adc.samples] equal to 1 it divides by zero, and when
    the last read handed back [None] it fails on [len(None)]. *)
Theorem segmented_traces (s : OpenADC) :
  (∀ data,
     data_points s = Some data →
     2 ≤ num "adc.samples" s →
     let seg_len := num "adc.samples" s - 1 in
     let total := Z.of_nat (length data) in
     ∃ traces,
       get_last_trace_segmented s = Segments traces
       ∧ Forall (λ t, Z.of_nat (length t) = seg_len) traces
       ∧ Z.of_nat (length traces) = total `div` seg_len
       ∧ concat traces = take (length (concat traces)) data
       ∧ total - Z.of_nat (length (concat traces)) = total `mod` seg_len)
  ∧ (data_points s = Some [] → 2 ≤ num "adc.samples" s →
     get_last_trace_segmented s = Segments [])
  ∧ (∀ data,
       data_points s = Some data → num "adc.samples" s = 1 →
       get_last_trace_segmented s = ZeroDivision)
  ∧ (data_points s = None → get_last_trace_segmented s = NoTrace).
Proof.
  split; [|split; [|split]].
  - intros data Hdata Hsamples seg_len total.
    unfold get_last_trace_segmented. rewrite Hdata. fold seg_len.
    destruct (Z.eqb_spec seg_len 0) as [|_]; [lia|].
    destruct (Z.ltb_spec seg_len 0) as [|_]; [lia|].
    fold total. rewrite Z.quot_div_nonneg by lia.
    set (q := total `div` seg_len).
    assert (Hq : 0 ≤ q) by (apply Z.div_pos; lia).
    assert (Hfit : q * seg_len ≤ total).
    { rewrite Z.mul_comm. apply Z.mul_div_le. lia. }
    destruct (rows_spec (Z.to_nat q) (Z.to_nat seg_len)
                (take (Z.to_nat (q * seg_len)) data)) as (Hn & Hall & Hcat).
    { rewrite length_take. unfold total in Hfit. nia. }
    eexists. split; [reflexivity|].
    assert (Hlen : length (concat (rows (Z.to_nat q) (Z.to_nat seg_len)
                                     (take (Z.to_nat (q * seg_len)) data)))
                   = Z.to_nat (q * seg_len)).
    { rewrite Hcat, take_take, length_take. unfold total in Hfit. nia. }
    split; [|split; [|split]].
    + eapply Forall_impl; [exact Hall|]. simpl. intros t Ht. lia.
    + rewrite Hn. lia.
    + rewrite Hlen, Hcat, take_take. f_equal. nia.
    + rewrite Hlen, Z2Nat.id by nia.
      rewrite (Z.mod_eq total seg_len) by lia. fold q. lia.
  - intros Hdata Hsamples. unfold get_last_trace_segmented. rewrite Hdata.
    destruct (Z.eqb_spec (num "adc.samples" s - 1) 0) as [|_]; [lia|].
    destruct (Z.ltb_spec (num "adc.samples" s - 1) 0) as [|_]; [lia|].
    reflexivity.
  - intros data Hdata Hone. unfold get_last_trace_segmented.
    by rewrite Hdata, Hone.
  - intros Hnone. unfold get_last_trace_segmented. by rewrite Hnone.
Qed.

Lemma segmented_traces_witness :
  ∃ traces,
    get_last_trace_segmented (set_data_points (Some [1; 2; 3; 4; 5]) lite_scope)
    = Segments traces
    ∧ Forall (λ t, Z.of_nat (length t) = 2) traces
    ∧ Z.of_nat (length traces) = 2
    ∧ concat traces = take (length (concat traces)) [1; 2; 3; 4; 5]
    ∧ 5 - Z.of_nat (length (concat traces)) = 1.
Proof.
  apply (proj1 (segmented_traces (set_data_points (Some [1; 2; 3; 4; 5]) lite_scope))
           [1; 2; 3; 4; 5] eq_refl).
  vm_compute. discriminate.
Defined.

(** *** Status polling and the kind of device *)

(** X11 (OpenADC.py [dcmTimeout], lines 244-250): [dcmTimeout()] reads the status only on a connected scope: on a
    disconnected one it returns without looking at the hardware.  When the
    read raises, the scope is disconnected and the exception passed on, so
    that a second [dcmTimeout()] returns quietly; when the read returns, the
    scope is unchanged. *)
Theorem dcmTimeout_outcomes (s : OpenADC) :
  (_is_connected s = false → ∀ status, dcmTimeout status s = Ok tt s)
  ∧ (_is_connected s = true → dcmTimeout (Done tt) s = Ok tt s)
  ∧ (_is_connected s = true →
     ∀ e, ∃ s', dcmTimeout (Fails e) s = Raise e s'
                ∧ _is_connected s' = false
                ∧ settings s' = settings s
                ∧ ∀ status, dcmTimeout status s' = Ok tt s').
Proof.
  destruct s as [c cs hk st adv dp cfg lg].
  unfold dcmTimeout, try_except_reraise, dis. run.
  split; [|split]; intros ->; simpl; [done..|].
  intros e. destruct st; simpl; eexists; by repeat split.
Qed.

Lemma dcmTimeout_outcomes_witness :
  dcmTimeout (Fails (HwError "usb")) (set_connected false lite_scope)
    = Ok tt (set_connected false lite_scope)
  ∧ (∃ s', dcmTimeout (Fails (HwError "usb")) lite_scope = Raise (HwError "usb") s'
           ∧ _is_connected s' = false).
Proof.
  split.
  - apply (proj1 (dcmTimeout_outcomes (set_connected false lite_scope))). reflexivity.
  - destruct (proj2 (proj2 (dcmTimeout_outcomes lite_scope)) eq_refl (HwError "usb"))
      as (s' & Hrun & Hc & _).
    exists s'. split; [exact Hrun | exact Hc].
Defined.

(** X12 (OpenADC.py [_getCWType], [get_name] and [_getFWPy]): For every version string the hardware can report: [_getCWType] gives
    one of five names; a string without "ChipWhisperer" gives the empty
    name whatever else it holds, and "Lite" wins over "CW1200" and "Husky"
    when several occur.  [get_name()] returns a name exactly when
    [_getFWPy()] finds a firmware package, and [_getFWPy()] raises
    [ValueError] exactly for the names "cwrev2" and the empty one. *)
Theorem cw_type_dispatch (hwInfoVer : string) :
  _getCWType hwInfoVer ∈ ["cwlite"; "cw1200"; "cwhusky"; "cwrev2"; ""]
  ∧ (contains "ChipWhisperer" hwInfoVer = false → _getCWType hwInfoVer = "")
  ∧ (contains "ChipWhisperer" hwInfoVer = true → contains "Lite" hwInfoVer = true →
     _getCWType hwInfoVer = "cwlite")
  ∧ (∀ (s : OpenADC),
       match _getFWPy hwInfoVer s with
       | Ok package s' =>
           s' = s ∧ package = _getCWType hwInfoVer
           ∧ is_Some (get_name hwInfoVer)
       | Raise e s' =>
           s' = s ∧ e = ValueError ("Unknown cw_type: " ++ _getCWType hwInfoVer)
           ∧ get_name hwInfoVer = None
           ∧ (_getCWType hwInfoVer = "cwrev2" ∨ _getCWType hwInfoVer = "")
       | Diverged _ => False
       end).
Proof.
  unfold _getFWPy, get_name, _getCWType.
  destruct (contains "ChipWhisperer" hwInfoVer);
    [destruct (contains "Lite" hwInfoVer);
     [|destruct (contains "CW1200" hwInfoVer);
       [|destruct (contains "Husky" hwInfoVer)]]|];
    simpl; (split; [set_solver|]); (split; [done|]); (split; [done|]);
    intros s; unfold ret, raise; simpl; repeat split; eauto.
Qed.

Lemma cw_type_dispatch_witness :
  _getCWType "Husky Lite" = ""
  ∧ _getCWType "ChipWhisperer Husky, not Lite" = "cwlite".
Proof.
  split.
  - apply (proj1 (proj2 (cw_type_dispatch "Husky Lite"))). reflexivity.
  - apply (proj1 (proj2 (proj2 (cw_type_dispatch "ChipWhisperer Husky, not Lite"))));
      reflexivity.
Defined.

(** *** More on [default_setup] *)

Lemma reconnects_snoc l c :
  reconnects (l ++ [c]) = (reconnects l + if is_con c then 1 else 0)%nat.
Proof.
  unfold reconnects. rewrite List.filter_app, length_app. simpl.
  by destruct (is_con c).
Qed.

Lemma retry_reconnect_found h s dev :
  reconnect h = Done dev →
  ∃ s', retry_reconnect h s = Ok tt s'
        ∧ resets (hw_log s') = resets (hw_log s)
        ∧ reconnects (hw_log s') = S (reconnects (hw_log s))
        ∧ _is_connected s' = true.
Proof.
  intros Hdev. destruct s as [c cs hk st adv dp cfg lg].
  unfold retry_reconnect, dis, con, setattrs, setattr. run. rewrite Hdev.
  destruct st; cbn -[foldl reapplied husky_power_up resets reconnects];
    destruct (String.eqb (cwtype dev) "cwhusky");
    cbn -[foldl reapplied husky_power_up resets reconnects];
    eexists; (split; [reflexivity|]);
    cbn -[foldl reapplied husky_power_up resets reconnects];
    rewrite ?resets_snoc, ?reconnects_snoc; simpl; (split; [lia|]); (split; [lia|done]).
Qed.

Lemma retry_reconnect_fails h s e :
  reconnect h = Fails e →
  ∃ s', retry_reconnect h s = Raise e s'
        ∧ resets (hw_log s') = resets (hw_log s)
        ∧ _is_connected s' = false
        ∧ settings s' = settings s.
Proof.
  intros Hdev. destruct s as [c cs hk st adv dp cfg lg].
  unfold retry_reconnect, dis, con. run. rewrite Hdev.
  destruct st; cbn -[resets]; eexists; (split; [reflexivity|]);
    cbn -[resets]; rewrite ?resets_snoc; simpl; (split; [lia|done]).
Qed.

Lemma reconnects_after_reset s :
  reconnects (hw_log (log (Sleep 50) (log ResetDcms s))) = reconnects (hw_log s).
Proof. cbn -[reconnects]. rewrite !reconnects_snoc. simpl. lia. Qed.

Lemma pll_loop_first h k fuel count s :
  (count ≤ k ≤ 10)%nat →
  (∀ j, (count ≤ j < k)%nat → clkgen_locked h j = false) →
  clkgen_locked h k = true →
  (k - count < fuel)%nat →
  ∃ s', pll_loop h fuel count s = Ok tt s'
        ∧ resets (hw_log s') = (resets (hw_log s) + (k - count))%nat
        ∧ reconnects (hw_log s') = reconnects (hw_log s)
        ∧ settings s' = settings s.
Proof.
  revert count s. induction fuel as [|fuel IH]; intros count s Hk Hbefore Hat Hfuel;
    [lia|].
  cbn -[Nat.ltb resets reconnects].
  destruct (Nat.eq_dec count k) as [->|Hne].
  - rewrite Hat. eexists. split; [reflexivity|]. split; [lia|done].
  - rewrite Hbefore by lia.
    unfold bind, hw, modify, perform, ret. cbn -[Nat.ltb resets reconnects].
    destruct (Nat.ltb_spec 10 (S count)) as [|_]; [lia|].
    destruct (IH (S count) (log ResetDcms s)) as (s' & Hrun & Hr & Hc & Hs);
      [lia | intros j Hj; apply Hbefore; lia | done | lia |].
    exists s'. split; [done|].
    cbn -[resets reconnects] in Hr, Hc, Hs.
    rewrite resets_snoc in Hr. rewrite reconnects_snoc in Hc. simpl in Hr, Hc.
    split; [lia|]. split; [lia|done].
Qed.

Lemma dcm_loop_first h k fuel count s :
  (count ≤ k ≤ 10)%nat →
  (∀ j, (count ≤ j < k)%nat → clkgen_locked h j = false) →
  clkgen_locked h k = true →
  (k - count < fuel)%nat →
  (k < 5)%nat ∨ (5 ≤ count)%nat ∨ (∃ dev, reconnect h = Done dev) →
  ∃ s', dcm_loop h fuel count s = Ok tt s'
        ∧ resets (hw_log s') = (resets (hw_log s) + (k - count))%nat
        ∧ reconnects (hw_log s')
          = (reconnects (hw_log s)
             + if (count <? 5)%nat && (5 <=? k)%nat then 1 else 0)%nat.
Proof.
  revert count s.
  induction fuel as [|fuel IH]; intros count s Hk Hbefore Hat Hfuel Hrec; [lia|].
  rewrite dcm_loop_S.
  destruct (Nat.eq_dec count k) as [->|Hne].
  - rewrite Hat. eexists. split; [reflexivity|]. split; [lia|].
    destruct (Nat.ltb_spec k 5), (Nat.leb_spec 5 k); simpl; lia.
  - rewrite Hbefore by lia.
    pose proof (resets_after_reset s) as HrA.
    pose proof (reconnects_after_reset s) as HcA.
    remember (log (Sleep 50) (log ResetDcms s)) as sA eqn:EsA. clear EsA.
    destruct (Nat.eqb_spec (S count) 5) as [H5|H5].
    + destruct Hrec as [Hlt | [Hge | [dev Hdev]]]; [lia | lia |].
      destruct (retry_reconnect_found h sA dev Hdev) as (sB & -> & HrB & HcB & _).
      destruct (Nat.ltb_spec 10 (S count)) as [|_]; [lia|].
      destruct (IH (S count) sB) as (s' & Hrun & Hr & Hc);
        [lia | intros j Hj; apply Hbefore; lia | done | lia | right; left; lia |].
      exists s'. split; [done|]. split; [lia|].
      rewrite Hc.
      destruct (Nat.ltb_spec (S count) 5), (Nat.ltb_spec count 5),
        (Nat.leb_spec 5 k); simpl; lia.
    + unfold ret. cbv beta iota.
      destruct (Nat.ltb_spec 10 (S count)) as [|_]; [lia|].
      destruct (IH (S count) sA) as (s' & Hrun & Hr & Hc);
        [lia | intros j Hj; apply Hbefore; lia | done | lia | |].
      { destruct Hrec as [Hlt | [Hge | Hdev]];
          [by left | right; left; lia | by right; right]. }
      exists s'. split; [done|]. split; [lia|].
      rewrite Hc.
      destruct (Nat.ltb_spec (S count) 5), (Nat.ltb_spec count 5),
        (Nat.leb_spec 5 k); simpl; lia.
Qed.

(** X13 (OpenADC.py [default_setup], lines 170-242): [default_setup()] returns as soon as the clock is locked: when the
    first read of [clkgen_locked] that answers [True] is read number [k]
    (counted from 0, at most 10), the call has made exactly [k] calls of
    [reset_dcms()].  It reconnects at most once, and only on a device other
    than the Husky whose clock was still unlocked at the fifth read. *)
Theorem default_setup_returns_at_first_lock (h : SetupIO) (fuel k : nat) (s : OpenADC) :
  (k ≤ 10)%nat →
  (∀ j, (j < k)%nat → clkgen_locked h j = false) →
  clkgen_locked h k = true →
  (k < fuel)%nat →
  _is_husky s = true ∨ (k < 5)%nat ∨ (∃ dev, reconnect h = Done dev) →
  ∃ s', default_setup h fuel s = Ok tt s'
        ∧ resets (hw_log s') = (resets (hw_log s) + k)%nat
        ∧ reconnects (hw_log s')
          = (reconnects (hw_log s)
             + if negb (_is_husky s) && (5 <=? k)%nat then 1 else 0)%nat.
Proof.
  intros Hk Hbefore Hat Hfuel Hrec.
  unfold default_setup, setattrs, setattr. unfold bind, gets, modify.
  cbn -[foldl baseline husky_clock husky_power_up resets reconnects].
  destruct (_is_husky s) eqn:Hh.
  - destruct (pll_loop_first h k fuel 0
                (set_settings (λ m, foldl assign m husky_clock)
                   (set_settings (λ m, foldl assign m baseline) s)))
      as (s' & -> & Hr & Hc & _);
      [lia | intros j Hj; apply Hbefore; lia | done | lia |].
    eexists. split; [reflexivity|].
    cbn -[resets reconnects] in *. split; lia.
  - destruct (dcm_loop_first h k fuel 0
                (set_settings <["clock.adc_src" := VStr "clkgen_x4"]>
                   (set_settings (λ m, foldl assign m baseline) s)))
      as (s' & -> & Hr & Hc);
      [lia | intros j Hj; apply Hbefore; lia | done | lia | |].
    { destruct Hrec as [|[|]]; [done | by left | by right; right]. }
    exists s'. split; [done|].
    cbn -[resets reconnects] in *. split; [lia|]. rewrite Hc. done.
Qed.

Lemma default_setup_returns_at_first_lock_witness :
  ∃ s', default_setup (mkSetupIO (locks_at 6) (Done lite_device)) 11 lite_repeat10
        = Ok tt s'
        ∧ resets (hw_log s') = 6%nat
        ∧ reconnects (hw_log s') = 1%nat.
Proof.
  apply (default_setup_returns_at_first_lock
           (mkSetupIO (locks_at 6) (Done lite_device)) 11 6 lite_repeat10).
  - lia.
  - intros j Hj. change (locks_at 6 j = false). unfold locks_at.
    apply Nat.leb_gt. lia.
  - reflexivity.
  - lia.
  - right. right. by exists lite_device.
Defined.

Lemma dcm_loop_reconnect_fails h e fuel count s :
  (count ≤ 4)%nat →
  (∀ j, (count ≤ j < 5)%nat → clkgen_locked h j = false) →
  reconnect h = Fails e →
  (5 - count ≤ fuel)%nat →
  ∃ s', dcm_loop h fuel count s = Raise e s'
        ∧ resets (hw_log s') = (resets (hw_log s) + (5 - count))%nat
        ∧ _is_connected s' = false
        ∧ settings s' = settings s.
Proof.
  revert count s.
  induction fuel as [|fuel IH]; intros count s Hc Hnever Hdev Hfuel; [lia|].
  rewrite dcm_loop_S, Hnever by lia.
  pose proof (resets_after_reset s) as HrA.
  assert (HsA : settings (log (Sleep 50) (log ResetDcms s)) = settings s) by done.
  remember (log (Sleep 50) (log ResetDcms s)) as sA eqn:EsA. clear EsA.
  destruct (Nat.eqb_spec (S count) 5) as [H5|H5].
  - destruct (retry_reconnect_fails h sA e Hdev) as (sB & -> & HrB & HcB & HsB).
    exists sB. split; [done|]. split; [lia|]. split; [done|congruence].
  - unfold ret. cbv beta iota.
    destruct (Nat.ltb_spec 10 (S count)) as [|_]; [lia|].
    destruct (IH (S count) sA) as (s' & Hrun & Hr & Hcon & Hs);
      [lia | intros j Hj; apply Hnever; lia | done | lia |].
    exists s'. split; [done|]. split; [lia|]. split; [done|congruence].
Qed.

(** X14 (OpenADC.py [default_setup], lines 170-242): On a device other than the Husky, when the clock is still unlocked at
    the fifth read and the reconnection then fails, [default_setup()] passes
    that exception on after exactly five calls of [reset_dcms()] and leaves
    the scope disconnected, with the baseline it had assigned still in its
    settings. *)
Theorem default_setup_reconnect_failure (h : SetupIO) (fuel : nat) (s : OpenADC) (e : exn) :
  _is_husky s = false →
  (∀ j, (j < 5)%nat → clkgen_locked h j = false) →
  reconnect h = Fails e →
  (5 ≤ fuel)%nat →
  ∃ s', default_setup h fuel s = Raise e s'
        ∧ resets (hw_log s') = (resets (hw_log s) + 5)%nat
        ∧ _is_connected s' = false
        ∧ settings s' = foldl assign (settings s) (setup_table s)
        ∧ ∀ h', arm h' s' = Raise not_connected s'.
Proof.
  intros Hh Hnever Hdev Hfuel.
  unfold default_setup, setup_table, setattrs, setattr. unfold bind, gets, modify.
  cbn -[foldl baseline resets]. rewrite Hh.
  destruct (dcm_loop_reconnect_fails h e fuel 0
              (set_settings <["clock.adc_src" := VStr "clkgen_x4"]>
                 (set_settings (λ m, foldl assign m baseline) s)))
    as (s' & -> & Hr & Hc & Hs);
    [lia | intros j Hj; apply Hnever; lia | done | lia |].
  exists s'. split; [done|]. cbn -[foldl baseline resets] in *.
  split; [lia|]. split; [done|]. split; [by rewrite Hs, foldl_app|].
  intros h'. unfold arm. run. by rewrite Hc.
Qed.

Lemma default_setup_reconnect_failure_witness :
  ∃ s', default_setup (mkSetupIO (locks_at 6) (Fails (HwError "usb"))) 11 lite_repeat10
        = Raise (HwError "usb") s'
        ∧ resets (hw_log s') = 5%nat
        ∧ _is_connected s' = false.
Proof.
  destruct (default_setup_reconnect_failure
              (mkSetupIO (locks_at 6) (Fails (HwError "usb"))) 11 lite_repeat10
              (HwError "usb")) as (s' & Hrun & Hr & Hc & _).
  - reflexivity.
  - intros j Hj. change (locks_at 6 j = false). unfold locks_at.
    apply Nat.leb_gt. lia.
  - reflexivity.
  - lia.
  - exists s'. split; [exact Hrun|]. split; [exact Hr | exact Hc].
Defined.

(** *** The sweeps as a whole *)

Lemma progress_refl keys b : progress 0 keys b b.
Proof.
  split; [|split]; [exists []|exists []|done];
    (split; [by rewrite app_nil_r|reflexivity]).
Qed.

Lemma progress_weaken n m keys b b' :
  (n ≤ m)%nat → progress n keys b b' → progress m keys b b'.
Proof.
  intros Hnm ((added & Hr & Hn) & (events & Ht & Hf) & Hs).
  split; [|split]; [exists added|exists events|done]; split; (done || lia).
Qed.

Lemma progress_trans n m keys b b1 b2 :
  progress n keys b b1 → progress m keys b1 b2 → progress (n + m) keys b b2.
Proof.
  intros ((a1 & Hr1 & Hn1) & (e1 & Ht1 & Hf1) & Hs1)
         ((a2 & Hr2 & Hn2) & (e2 & Ht2 & Hf2) & Hs2).
  split; [|split].
  - exists (a1 ++ a2). rewrite Hr2, Hr1, <- app_assoc, length_app. split; [done|lia].
  - exists (e1 ++ e2). rewrite Ht2, Ht1, <- app_assoc, flushes_app. split; [done|lia].
  - intros k Hk. by rewrite Hs2, Hs1.
Qed.

Lemma progress_bind {A B} n m keys (c : Py Bench A) (f : A → Py Bench B) b :
  progress n keys b (final (c b)) →
  (∀ a b1, c b = Ok a b1 → progress m keys b1 (final (f a b1))) →
  progress (n + m) keys b (final (bind c f b)).
Proof.
  intros Hc Hf. unfold bind. destruct (c b) as [a b1|e b1|b1]; simpl in *.
  - eapply progress_trans; [exact Hc | by apply Hf].
  - eapply progress_weaken; [|exact Hc]. lia.
  - eapply progress_weaken; [|exact Hc]. lia.
Qed.

Lemma arm_final_settings h s : settings (final (arm h s)) = settings s.
Proof.
  destruct s as [c cs hk st adv dp cfg lg], h as [h1 h2 h3 h4 h5].
  unfold arm, try_except_reraise, dis. run.
  destruct c; simpl; [|done]. destruct adv; simpl; [|by destruct st].
  destruct h1 as [[]|?]; simpl; [|by destruct st].
  destruct h2 as [[]|?]; simpl; [|by destruct st].
  destruct h3 as [[]|?]; simpl; [|by destruct st].
  destruct hk; simpl.
  - destruct h4 as [[]|?]; simpl; [|by destruct st].
    destruct h5 as [[]|?]; simpl; [done|by destruct st].
  - destruct h5 as [[]|?]; simpl; [done|by destruct st].
Qed.

Lemma on_scope_progress {A} (c : Py OpenADC A) keys b :
  (∀ k, k ∉ keys → settings (final (c (scope b))) !! k = settings (scope b) !! k) →
  progress 0 keys b (final (on_scope c b)).
Proof.
  intros Hs. unfold on_scope, zoom.
  split; [|split].
  - exists []. split; [|simpl; lia]. destruct (c (scope b)); simpl; by rewrite app_nil_r.
  - exists []. split; [|reflexivity]. destruct (c (scope b)); simpl; by rewrite app_nil_r.
  - intros k Hk. specialize (Hs k Hk). by destruct (c (scope b)).
Qed.

Lemma setattr_progress name v keys b :
  name ∈ keys → progress 0 keys b (final (on_scope (setattr name v) b)).
Proof.
  intros Hin. apply on_scope_progress. intros k Hk. simpl.
  apply lookup_insert_ne. intros ->. done.
Qed.

Lemma emit_progress e keys b :
  is_flush e = false → progress 0 keys b (final (emit e b)).
Proof.
  intros He. split; [|split]; simpl; [| |done].
  - exists []. split; [by rewrite app_nil_r|simpl; lia].
  - exists [e]. split; [done|]. unfold flushes. simpl. by rewrite He.
Qed.

Lemma gc_add_progress g params keys b : progress 1 keys b (final (gc_add g params b)).
Proof.
  split; [|split]; simpl; [| |done].
  - exists [(g, params)]. split; [reflexivity|simpl; lia].
  - exists []. split; [by rewrite app_nil_r|unfold flushes; simpl; lia].
Qed.

Lemma reboot_flush_progress keys b :
  "io.nrst" ∈ keys → progress 1 keys b (final (reboot_flush b)).
Proof.
  intros Hin. rewrite reboot_flush_spec. split; [|split]; simpl.
  - exists []. split; [by rewrite app_nil_r|simpl; lia].
  - exists reboot_flush_events. split; [reflexivity|vm_compute; lia].
  - intros k Hk. apply lookup_insert_ne. intros <-. done.
Qed.

Lemma index_progress {A} (l : list A) i keys b :
  progress 0 keys b (final (index l i b)).
Proof. unfold index. destruct (l !! i); apply progress_refl. Qed.

Lemma sweep_keys_nrst : "io.nrst" ∈ sweep_keys.
Proof. unfold sweep_keys. set_solver. Qed.

Lemma record_and_recover_progress g params b :
  progress 1 sweep_keys b (final ((gc_add g params ;;ₚ reboot_flush) b)).
Proof.
  unfold bind, gc_add, modify. cbv beta iota. rewrite reboot_flush_spec.
  split; [|split]; simpl.
  - exists [(g, params)]. split; [reflexivity|simpl; lia].
  - exists reboot_flush_events. split; [reflexivity|vm_compute; lia].
  - intros k Hk. apply lookup_insert_ne. intros <-. by apply Hk, sweep_keys_nrst.
Qed.

Lemma fire_101_progress h b : progress 0 sweep_keys b (final (fire_101 h b)).
Proof.
  unfold fire_101.
  apply (progress_bind 0 0); [|intros _ b1 _].
  { apply on_scope_progress. intros k _. by rewrite arm_final_settings. }
  apply (progress_bind 0 0); [by apply emit_progress|intros _ b2 _].
  apply (progress_bind 0 0); [|intros r b3 _].
  { apply on_scope_progress. intros k _.
    by rewrite (proj2 (proj2 (capture_keeps_session _ _))). }
  apply (progress_bind 0 0); [by apply emit_progress|intros _ b4 _].
  apply progress_refl.
Qed.

Lemma fire_201_progress h b : progress 0 sweep_keys b (final (fire_201 h b)).
Proof.
  unfold fire_201.
  apply (progress_bind 0 0); [|intros _ b1 _].
  { apply on_scope_progress. intros k _. by rewrite arm_final_settings. }
  apply (progress_bind 0 0); [by apply emit_progress|intros _ b2 _].
  apply (progress_bind 0 0); [by apply emit_progress|intros _ b2' _].
  apply (progress_bind 0 0); [|intros r b3 _].
  { apply on_scope_progress. intros k _.
    by rewrite (proj2 (proj2 (capture_keeps_session _ _))). }
  apply (progress_bind 0 0); [by apply emit_progress|intros _ b4 _].
  apply progress_refl.
Qed.

Lemma trial_101_progress gs h b : progress 2 sweep_keys b (final (trial_101 gs h b)).
Proof.
  unfold trial_101, attempt_101.
  apply (progress_bind 1 1); [|intros r b1 _].
  - apply (progress_bind 0 1); [|intros _ b1 _].
    + unfold apply_101.
      apply (progress_bind 0 0); [apply index_progress|intros o b1 _].
      apply (progress_bind 0 0); [|intros _ b2 _].
      { apply setattr_progress. unfold sweep_keys. set_solver. }
      apply (progress_bind 0 0); [apply index_progress|intros w b3 _].
      apply setattr_progress. unfold sweep_keys. set_solver.
    + apply (progress_bind 1 0); [|intros _ b2 _; apply fire_101_progress].
      unfold precheck_101. destruct (adc_state h).
      * apply (record_and_recover_progress reset (width_offset b1)).
      * apply (progress_weaken 0); [lia|apply progress_refl].
  - unfold classify_101.
    change (progress 1 sweep_keys b1
              (final ((if r then gc_add reset (width_offset b1) ;;ₚ reboot_flush
                       else if negb (valid (val h)) then gc_add reset (width_offset b1)
                       else match payload (val h) with
                            | None => ret tt
                            | Some p =>
                                gcnt ←ₚ unpack_le32 p ;;
                                if negb (gcnt =? 2500)
                                then set_broken ;;ₚ gc_add success (width_offset b1)
                                else gc_add normal (width_offset b1)
                            end) b1))).
    destruct r; [apply record_and_recover_progress|].
    destruct (valid (val h)); simpl; [|apply gc_add_progress].
    destruct (payload (val h)) as [p|];
      [|apply (progress_weaken 0); [lia|apply progress_refl]].
    unfold unpack_le32, bind.
    destruct p as [|c0 [|c1 [|c2 [|c3 [|c4 p]]]]];
      try (apply (progress_weaken 0); [lia|apply progress_refl]).
    unfold ret. cbv beta iota.
    destruct (negb _); [|apply gc_add_progress].
    unfold set_broken, gc_add, modify. cbv beta iota. simpl.
    split; [|split]; simpl; [| |done].
    + exists [(success, width_offset b1)]. split; [reflexivity|simpl; lia].
    + exists []. split; [by rewrite app_nil_r|unfold flushes; simpl; lia].
Qed.

Lemma gets_progress {A} (f : Bench → A) keys b : progress 0 keys b (final (gets f b)).
Proof. apply progress_refl. Qed.

Lemma trial_201_progress gs h b : progress 2 sweep_keys b (final (trial_201 gs h b)).
Proof.
  unfold trial_201, attempt_201.
  apply (progress_bind 1 1); [|intros [r params] b1 _].
  - apply (progress_bind 0 1); [|intros params b1 _].
    + unfold apply_201.
      apply (progress_bind 0 0); [apply index_progress|intros w b1 _].
      apply (progress_bind 0 0); [|intros _ b2 _].
      { apply setattr_progress. unfold sweep_keys. set_solver. }
      apply (progress_bind 0 0); [apply index_progress|intros o b3 _].
      apply (progress_bind 0 0); [|intros _ b4 _].
      { apply setattr_progress. unfold sweep_keys. set_solver. }
      apply (progress_bind 0 0); [apply index_progress|intros e b5 _].
      apply (progress_bind 0 0); [|intros _ b6 _].
      { apply setattr_progress. unfold sweep_keys. set_solver. }
      apply (progress_bind 0 0); [apply gets_progress|intros loff b7 _].
      apply (progress_bind 0 0); [apply gets_progress|intros lwid b8 _].
      apply (progress_bind 0 0); [apply gets_progress|intros lext b9 _].
      apply progress_refl.
    + apply (progress_bind 1 0); [|intros _ b2 _].
      * unfold precheck_201. destruct (adc_state h).
        -- apply record_and_recover_progress.
        -- apply (progress_weaken 0); [lia|apply progress_refl].
      * apply (progress_bind 0 0); [apply fire_201_progress|intros r b3 _].
        apply progress_refl.
  - unfold classify_201.
    destruct r; [apply record_and_recover_progress|].
    destruct (valid (val h)); simpl; [|apply gc_add_progress].
    destruct (payload (val h)) as [p|];
      [|apply (progress_weaken 0); [lia|apply progress_refl]].
    apply (progress_bind 0 1); [apply index_progress|intros retVal b2 _].
    destruct (negb _); [|apply gc_add_progress].
    unfold bind, set_broken, gc_add, modify. cbv beta iota. simpl.
    split; [|split]; simpl; [| |done].
    + exists [(success, params)]. split; [reflexivity|simpl; lia].
    + exists []. split; [by rewrite app_nil_r|unfold flushes; simpl; lia].
Qed.

Lemma for_each_progress body hs todo :
  (∀ gs h b, progress 2 sweep_keys b (final (body gs h b))) →
  ∀ i b, progress (2 * length todo) sweep_keys b (final (for_each body hs i todo b)).
Proof.
  intros Hbody. induction todo as [|gs todo IH]; intros i b.
  - apply progress_refl.
  - change (for_each body hs i (gs :: todo))
      with (body gs (hs i) ;;ₚ for_each body hs (S i) todo).
    replace (2 * length (gs :: todo))%nat with (2 + 2 * length todo)%nat
      by (simpl; lia).
    apply progress_bind; [apply Hbody|intros _ b1 _; apply IH].
Qed.

(** X15 (glitch_101.py lines 57-109, glitch_201.py lines 56-111): however
    the passes of a sweep end (normally, by an exception, with any hardware
    behaviour), the loop only appends to the campaign results, adds at most
    two records per setting, and calls [reboot_flush()] at most twice per
    setting. *)
Theorem sweep_appends_at_most_two_per_setting
    (hs : nat → TrialIO) (i : nat) (todo : list (list Z)) (b : Bench) :
  (∃ added events,
      results (final (for_each trial_101 hs i todo b)) = results b ++ added
      ∧ (length added ≤ 2 * length todo)%nat
      ∧ trace (final (for_each trial_101 hs i todo b)) = trace b ++ events
      ∧ (flushes events ≤ 2 * length todo)%nat)
  ∧ (∃ added events,
      results (final (for_each trial_201 hs i todo b)) = results b ++ added
      ∧ (length added ≤ 2 * length todo)%nat
      ∧ trace (final (for_each trial_201 hs i todo b)) = trace b ++ events
      ∧ (flushes events ≤ 2 * length todo)%nat).
Proof.
  split.
  - destruct (for_each_progress trial_101 hs todo trial_101_progress i b)
      as ((added & Hr & Hn) & (events & Ht & Hf) & _).
    by exists added, events.
  - destruct (for_each_progress trial_201 hs todo trial_201_progress i b)
      as ((added & Hr & Hn) & (events & Ht & Hf) & _).
    by exists added, events.
Qed.

(** X16 (glitch_101.py lines 57-109, glitch_201.py lines 56-111,
    OpenADC.py [arm] and [capture]): a sweep writes no scope setting other
    than [glitch.width], [glitch.offset], [glitch.ext_offset] and [io.nrst];
    every other setting, [adc.samples] among them, has at the end the value
    it had at the start, however the sweep ends. *)
Theorem sweep_settings_frame
    (hs : nat → TrialIO) (i : nat) (todo : list (list Z)) (b : Bench) (k : string) :
  k ∉ sweep_keys →
  settings (scope (final (for_each trial_101 hs i todo b))) !! k = settings (scope b) !! k
  ∧ settings (scope (final (for_each trial_201 hs i todo b))) !! k = settings (scope b) !! k.
Proof.
  intros Hk. split.
  - by apply (for_each_progress trial_101 hs todo trial_101_progress i b).
  - by apply (for_each_progress trial_201 hs todo trial_201_progress i b).
Qed.

Lemma sweep_settings_frame_witness :
  ("adc.samples" ∉ sweep_keys)
  ∧ settings (scope (final (for_each trial_101
        (λ _, pass true true [] (answer false None)) 0 [[8; 3]; [16; 4]] bench0)))
      !! "adc.samples" = settings (scope bench0) !! "adc.samples"
  ∧ settings (scope (final (for_each trial_201
        (λ _, pass true true [] (answer false None)) 0 [[8; 3]; [16; 4]] bench0)))
      !! "adc.samples" = settings (scope bench0) !! "adc.samples".
Proof.
  assert (H : "adc.samples" ∉ sweep_keys).
  { unfold sweep_keys. intros Hin.
    repeat (apply elem_of_cons in Hin as [Hin|Hin]; [discriminate|]).
    by apply elem_of_nil in Hin. }
  split; [exact H|].
  exact (sweep_settings_frame (λ _, pass true true [] (answer false None)) 0
           [[8; 3]; [16; 4]] bench0 "adc.samples" H).
Defined.

(** *** Passes that stop the sweep *)

Lemma arm_raises (h : ArmIO) (s : OpenADC) (e : exn) :
  _is_connected s = true →
  arm_failure h s = Some e →
  ∃ s', arm h s = Raise e s' ∧ _is_connected s' = false ∧ settings s' = settings s.
Proof.
  destruct s as [c cs hk st adv dp cfg lg], h as [h1 h2 h3 h4 h5].
  unfold arm, arm_failure, try_except_reraise, dis. run.
  intros -> He.
  destruct adv; simpl in *;
    [|injection He as <-; destruct st; simpl; eexists; by repeat split].
  destruct h1 as [[]|e1]; simpl in *;
    [|injection He as <-; destruct st; simpl; eexists; by repeat split].
  destruct h2 as [[]|e2]; simpl in *;
    [|injection He as <-; destruct st; simpl; eexists; by repeat split].
  destruct h3 as [[]|e3]; simpl in *;
    [|injection He as <-; destruct st; simpl; eexists; by repeat split].
  destruct hk; simpl in *.
  - destruct h4 as [[]|e4]; simpl in *;
      [|injection He as <-; destruct st; simpl; eexists; by repeat split].
    destruct h5 as [[]|e5]; simpl in *; [done|].
    injection He as <-; destruct st; simpl; eexists; by repeat split.
  - destruct h5 as [[]|e5]; simpl in *; [done|].
    injection He as <-; destruct st; simpl; eexists; by repeat split.
Qed.

Lemma apply_101_spec gs w o b :
  gs !! 0%nat = Some w → gs !! 1%nat = Some o →
  apply_101 gs b =
    Ok tt (set_scope (set_settings
             (λ m, <["glitch.width" := VNum w]> (<["glitch.offset" := VNum o]> m))
             (scope b)) b).
Proof.
  intros Hw Ho. unfold apply_101, index, on_scope, zoom, setattr. rewrite Hw, Ho.
  run. reflexivity.
Qed.

Lemma apply_201_spec gs w o e b :
  gs !! 0%nat = Some w → gs !! 1%nat = Some o → gs !! 2%nat = Some e →
  apply_201 gs b =
    Ok [w; o; e]
       (set_scope (set_settings
          (λ m, <["glitch.ext_offset" := VNum e]>
                  (<["glitch.offset" := VNum o]> (<["glitch.width" := VNum w]> m)))
          (scope b)) b).
Proof.
  intros Hw Ho He. unfold apply_201, index, on_scope, zoom, setattr.
  rewrite Hw, Ho, He. run. unfold num. simpl. lookups. reflexivity.
Qed.

Lemma fire_101_arm_raises h b e s' :
  arm (arm_io h) (scope b) = Raise e s' → fire_101 h b = Raise e (set_scope s' b).
Proof. intros H. unfold fire_101, bind, on_scope, zoom. by rewrite H. Qed.

Lemma fire_201_arm_raises h b e s' :
  arm (arm_io h) (scope b) = Raise e s' → fire_201 h b = Raise e (set_scope s' b).
Proof. intros H. unfold fire_201, bind, on_scope, zoom. by rewrite H. Qed.

Lemma for_each_cons_raises body hs i gs todo b e b' :
  body gs (hs i) b = Raise e b' → for_each body hs i (gs :: todo) b = Raise e b'.
Proof. intros H. simpl. unfold bind. by rewrite H. Qed.

Lemma trial_101_arm_raises gs w o h b e :
  gs !! 0%nat = Some w → gs !! 1%nat = Some o →
  _is_connected (scope b) = true →
  arm_failure (arm_io h) (scope b) = Some e →
  ∃ b', trial_101 gs h b = Raise e b'
        ∧ _is_connected (scope b') = false
        ∧ results b' = results b ++ precheck_records h [w; o]
        ∧ trace b' = trace b ++ precheck_events h.
Proof.
  intros Hw Ho Hc He.
  set (ba := set_scope (set_settings
               (λ m, <["glitch.width" := VNum w]> (<["glitch.offset" := VNum o]> m))
               (scope b)) b).
  assert (Hwo : width_offset ba = [w; o]).
  { unfold width_offset, num, ba. simpl. lookups. reflexivity. }
  set (b1 := if adc_state h
             then mkBench (set_settings <["io.nrst" := VStr "high_z"]> (scope ba))
                    (results ba ++ [(reset, width_offset ba)])
                    (trace ba ++ reboot_flush_events) (broken ba)
             else ba).
  assert (Hc1 : _is_connected (scope b1) = true) by (unfold b1; by destruct (adc_state h)).
  assert (He1 : arm_failure (arm_io h) (scope b1) = Some e)
    by (unfold b1; by destruct (adc_state h)).
  destruct (arm_raises _ _ _ Hc1 He1) as (s' & Harm & Hdis & _).
  exists (set_scope s' b1).
  split; [|split; [exact Hdis|]].
  - unfold trial_101, attempt_101, bind.
    rewrite (apply_101_spec gs w o b Hw Ho). fold ba. cbv beta iota.
    rewrite precheck_101_spec. fold b1. cbv beta iota.
    by rewrite (fire_101_arm_raises _ _ _ _ Harm).
  - unfold b1, precheck_records, precheck_events. rewrite Hwo.
    destruct (adc_state h); simpl; by rewrite ?app_nil_r.
Qed.

Lemma trial_201_arm_raises gs w o x h b e :
  gs !! 0%nat = Some w → gs !! 1%nat = Some o → gs !! 2%nat = Some x →
  _is_connected (scope b) = true →
  arm_failure (arm_io h) (scope b) = Some e →
  ∃ b', trial_201 gs h b = Raise e b'
        ∧ _is_connected (scope b') = false
        ∧ results b' = results b ++ precheck_records h [w; o; x]
        ∧ trace b' = trace b ++ precheck_events h.
Proof.
  intros Hw Ho Hx Hc He.
  set (ba := set_scope (set_settings
               (λ m, <["glitch.ext_offset" := VNum x]>
                       (<["glitch.offset" := VNum o]> (<["glitch.width" := VNum w]> m)))
               (scope b)) b).
  set (b1 := if adc_state h
             then mkBench (set_settings <["io.nrst" := VStr "high_z"]> (scope ba))
                    (results ba ++ [(reset, [w; o; x])])
                    (trace ba ++ reboot_flush_events) (broken ba)
             else ba).
  assert (Hc1 : _is_connected (scope b1) = true) by (unfold b1; by destruct (adc_state h)).
  assert (He1 : arm_failure (arm_io h) (scope b1) = Some e)
    by (unfold b1; by destruct (adc_state h)).
  destruct (arm_raises _ _ _ Hc1 He1) as (s' & Harm & Hdis & _).
  exists (set_scope s' b1).
  split; [|split; [exact Hdis|]].
  - unfold trial_201, attempt_201, bind.
    rewrite (apply_201_spec gs w o x b Hw Ho Hx). fold ba. cbv beta iota.
    rewrite precheck_201_spec. fold b1. cbv beta iota.
    by rewrite (fire_201_arm_raises _ _ _ _ Harm).
  - unfold b1, precheck_records, precheck_events.
    destruct (adc_state h); simpl; by rewrite ?app_nil_r.
Qed.

(** X17 (glitch_101.py lines 57-74, glitch_201.py lines 56-75, OpenADC.py
    [arm]): a pass whose [scope.arm()] fails ends the sweep.  The exception
    of the failing call leaves the loop, the settings still to do are never
    tried, the scope is left disconnected, and the only record this pass
    added is the one of its trigger check; no command was sent to the
    target. *)
Theorem arm_failure_stops_sweep
    (hs : nat → TrialIO) (i : nat) (gs : list Z) (todo : list (list Z))
    (b : Bench) (w o : Z) (e : exn) :
  gs !! 0%nat = Some w → gs !! 1%nat = Some o →
  _is_connected (scope b) = true →
  arm_failure (arm_io (hs i)) (scope b) = Some e →
  (∃ b', for_each trial_101 hs i (gs :: todo) b = Raise e b'
         ∧ _is_connected (scope b') = false
         ∧ results b' = results b ++ precheck_records (hs i) [w; o]
         ∧ trace b' = trace b ++ precheck_events (hs i))
  ∧ (∀ x, gs !! 2%nat = Some x →
       ∃ b', for_each trial_201 hs i (gs :: todo) b = Raise e b'
             ∧ _is_connected (scope b') = false
             ∧ results b' = results b ++ precheck_records (hs i) [w; o; x]
             ∧ trace b' = trace b ++ precheck_events (hs i)).
Proof.
  intros Hw Ho Hc He. split.
  - destruct (trial_101_arm_raises gs w o (hs i) b e Hw Ho Hc He)
      as (b' & Ht & Hrest).
    exists b'. split; [by apply for_each_cons_raises|exact Hrest].
  - intros x Hx.
    destruct (trial_201_arm_raises gs w o x (hs i) b e Hw Ho Hx Hc He)
      as (b' & Ht & Hrest).
    exists b'. split; [by apply for_each_cons_raises|exact Hrest].
Qed.

Lemma arm_failure_stops_sweep_witness :
  let h := mkTrialIO true
             (mkArmIO (Done tt) (Fails (HwError "usb")) (Done tt) (Done tt) (Done tt))
             (mkCaptureIO (Done false) (Done (Some [7; 8; 9])))
             (answer true None) in
  (∃ b', for_each trial_101 (λ _, h) 0 ([8; 3; 11] :: [[8; 4; 11]]) bench0
           = Raise (HwError "usb") b'
         ∧ _is_connected (scope b') = false
         ∧ results b' = results bench0 ++ precheck_records h [8; 3]
         ∧ trace b' = trace bench0 ++ precheck_events h)
  ∧ (∀ x, [8; 3; 11] !! 2%nat = Some x →
       ∃ b', for_each trial_201 (λ _, h) 0 ([8; 3; 11] :: [[8; 4; 11]]) bench0
               = Raise (HwError "usb") b'
             ∧ _is_connected (scope b') = false
             ∧ results b' = results bench0 ++ precheck_records h [8; 3; x]
             ∧ trace b' = trace bench0 ++ precheck_events h).
Proof.
  intros h.
  apply (arm_failure_stops_sweep (λ _, h) 0 [8; 3; 11] [[8; 4; 11]] bench0 8 3
           (HwError "usb")); reflexivity.
Defined.

(** X18 (glitch_101.py line 98, glitch_201.py line 101): an answer that is
    valid but whose payload has not the expected length ends the sweep.
    In glitch_101 a payload that is not four bytes long makes
    [struct.unpack] raise; in glitch_201 an empty payload makes the index
    [payload[0]] raise.  The exception leaves the loop after the capture,
    with nothing recorded for the capture of this pass. *)
Theorem unexpected_payload_stops_sweep
    (hs : nat → TrialIO) (i : nat) (gs : list Z) (todo : list (list Z))
    (b b1 : Bench) (p : list byte) :
  valid (val (hs i)) = true →
  payload (val (hs i)) = Some p →
  (attempt_101 gs (hs i) b = Ok false b1 → length p ≠ 4%nat →
     ∃ msg, for_each trial_101 hs i (gs :: todo) b = Raise (StructError msg) b1)
  ∧ (∀ params, attempt_201 gs (hs i) b = Ok (false, params) b1 → p = [] →
       ∃ msg, for_each trial_201 hs i (gs :: todo) b = Raise (IndexError msg) b1).
Proof.
  intros Hv Hp. split.
  - intros Ha Hlen. eexists. apply for_each_cons_raises.
    unfold trial_101, bind. rewrite Ha. unfold classify_101, bind, gets, ret.
    cbv beta iota. rewrite Hv, Hp. simpl negb. cbv beta iota.
    unfold unpack_le32, raise.
    destruct p as [|c0 [|c1 [|c2 [|c3 [|c4 p]]]]]; try reflexivity.
    by destruct Hlen.
  - intros params Ha ->. eexists. apply for_each_cons_raises.
    unfold trial_201, bind. rewrite Ha. unfold classify_201.
    rewrite Hv, Hp. reflexivity.
Qed.

Lemma unexpected_payload_stops_sweep_witness :
  let h := pass false false [7; 8; 9] (answer true (Some [])) in
  (∃ msg, for_each trial_101 (λ _, h) 0 ([8; 3; 11] :: [[8; 4; 11]]) bench0
          = Raise (StructError msg) (final (attempt_101 [8; 3; 11] h bench0)))
  ∧ (∃ msg, for_each trial_201 (λ _, h) 0 ([8; 3; 11] :: [[8; 4; 11]]) bench0
            = Raise (IndexError msg) (final (attempt_201 [8; 3; 11] h bench0))).
Proof.
  intros h.
  assert (Hv : valid (val h) = true) by reflexivity.
  assert (Hp : payload (val h) = Some []) by reflexivity.
  split.
  - apply (proj1 (unexpected_payload_stops_sweep (λ _, h) 0 [8; 3; 11] [[8; 4; 11]]
                    bench0 (final (attempt_101 [8; 3; 11] h bench0)) [] Hv Hp));
      [vm_compute; reflexivity|discriminate].
  - apply (proj2 (unexpected_payload_stops_sweep (λ _, h) 0 [8; 3; 11] [[8; 4; 11]]
                    bench0 (final (attempt_201 [8; 3; 11] h bench0)) [] Hv Hp)
             [8; 3; 11]); [vm_compute; reflexivity|reflexivity].
Defined.

(** *** Sweeps in which nothing goes wrong *)

Lemma arm_ok_spec s :
  _is_connected s = true → advancedSettings s = true → _is_husky s = false →
  ∃ s', arm arm_ok s = Ok tt s'
        ∧ _is_connected s' = true ∧ advancedSettings s' = true
        ∧ _is_husky s' = false ∧ settings s' = settings s.
Proof.
  destruct s as [c cs hk st adv dp cfg lg]. simpl. intros -> -> ->.
  unfold arm, arm_ok, try_except_reraise. run. eexists. by repeat split.
Qed.

Lemma capture_quiet h s d :
  _is_husky s = false →
  sc_capture h = Done false → sc_readData h = Done (Some d) →
  Z.of_nat (length d) = num "adc.samples" s →
  ∃ s', capture h s = Ok false s'
        ∧ _is_connected s' = _is_connected s
        ∧ advancedSettings s' = advancedSettings s
        ∧ _is_husky s' = false ∧ settings s' = settings s.
Proof.
  destruct s as [c cs hk st adv dp cfg lg], h as [cap rd]. simpl.
  intros -> -> -> Hn.
  unfold capture, capture_checks, total_samples, _capture_read, hw, bind, get, ret,
    modify, perform.
  cbn -[num truthy Z.eqb]. 
  replace (num "adc.samples" _) with (Z.of_nat (length d)).
  rewrite Z.eqb_refl. simpl. eexists. by repeat split.
Qed.

Lemma fire_101_quiet n h b :
  ready n b → quiet n h →
  ∃ b', fire_101 h b = Ok false b' ∧ ready n b'.
Proof.
  intros (Hc & Hadv & Hk & Hn) (_ & Harm & Hcap & (d & Hrd & Hd) & _).
  destruct (arm_ok_spec (scope b) Hc Hadv Hk) as (s1 & Ha & Hc1 & Hadv1 & Hk1 & Hs1).
  assert (Hlen : Z.of_nat (length d) = num "adc.samples" s1)
    by (unfold num in *; rewrite Hs1; congruence).
  destruct (capture_quiet (capture_io h) s1 d Hk1 Hcap Hrd Hlen)
    as (s2 & Hcp & Hc2 & Hadv2 & Hk2 & Hs2).
  eexists. split.
  - unfold fire_101, bind, on_scope, zoom, emit, modify, ret. rewrite Harm, Ha.
    cbn -[capture]. rewrite Hcp. reflexivity.
  - unfold ready, num in *. cbn. rewrite Hs2, Hs1. repeat split; congruence.
Qed.

Lemma fire_201_quiet n h b :
  ready n b → quiet n h →
  ∃ b', fire_201 h b = Ok false b' ∧ ready n b'.
Proof.
  intros (Hc & Hadv & Hk & Hn) (_ & Harm & Hcap & (d & Hrd & Hd) & _).
  destruct (arm_ok_spec (scope b) Hc Hadv Hk) as (s1 & Ha & Hc1 & Hadv1 & Hk1 & Hs1).
  assert (Hlen : Z.of_nat (length d) = num "adc.samples" s1)
    by (unfold num in *; rewrite Hs1; congruence).
  destruct (capture_quiet (capture_io h) s1 d Hk1 Hcap Hrd Hlen)
    as (s2 & Hcp & Hc2 & Hadv2 & Hk2 & Hs2).
  eexists. split.
  - unfold fire_201, bind, on_scope, zoom, emit, modify, ret. rewrite Harm, Ha.
    cbn -[capture]. rewrite Hcp. reflexivity.
  - unfold ready, num in *. cbn. rewrite Hs2, Hs1. repeat split; congruence.
Qed.

Lemma ready_applied n f b :
  ready n b →
  (∀ m, f m !! "adc.samples" = m !! "adc.samples") →
  ready n (set_scope (set_settings f (scope b)) b).
Proof.
  intros (Hc & Hadv & Hk & Hn) Hf. unfold ready, num in *. cbn. by rewrite Hf.
Qed.

Lemma little_endian_4 c0 c1 c2 c3 :
  little_endian [c0; c1; c2; c3]
  = byte_val c0 + 2 ^ 8 * byte_val c1 + 2 ^ 16 * byte_val c2 + 2 ^ 24 * byte_val c3.
Proof.
  unfold little_endian. cbn [foldr].
  change (2 ^ 8) with 256. change (2 ^ 16) with 65536. change (2 ^ 24) with 16777216.
  lia.
Qed.

Lemma trial_101_quiet n w o h b p :
  ready n b → quiet n h →
  payload (val h) = Some p → length p = 4%nat →
  ∃ b', trial_101 [w; o] h b = Ok tt b'
        ∧ results b' = results b ++ [(group_101 p, [w; o])]
        ∧ flushes (trace b') = flushes (trace b)
        ∧ ready n b'.
Proof.
  intros Hr Hq Hp Hlen.
  pose proof Hq as (Hst & _ & _ & _ & Hv).
  set (ba := set_scope (set_settings
               (λ m, <["glitch.width" := VNum w]> (<["glitch.offset" := VNum o]> m))
               (scope b)) b).
  assert (Hra : ready n ba).
  { apply ready_applied; [done|]. intros m. by lookups. }
  destruct (fire_101_quiet n h ba Hra Hq) as (b1 & Hf & Hr1).
  assert (Ha : attempt_101 [w; o] h b = Ok false b1).
  { unfold attempt_101, bind. rewrite (apply_101_spec [w; o] w o b eq_refl eq_refl).
    fold ba. cbv beta iota. rewrite precheck_101_spec, Hst. exact Hf. }
  destruct (attempt_101_inv _ _ _ _ _ Ha) as (w' & o' & Hw & Ho & Hwo & Hres & Htr & _).
  injection Hw as <-. injection Ho as <-.
  unfold precheck_records, precheck_events in *. rewrite Hst in *.
  rewrite app_nil_r in Hres. simpl in Htr.
  destruct p as [|c0 [|c1 [|c2 [|c3 [|c4 p]]]]]; try discriminate Hlen.
  assert (Htrial : trial_101 [w; o] h b = classify_101 h false b1)
    by (unfold trial_101, bind; by rewrite Ha).
  rewrite Htrial.
  unfold classify_101, unpack_le32, gc_add, set_broken. run.
  rewrite Hv, Hp, Hwo. simpl. unfold group_101. rewrite little_endian_4.
  destruct (_ =? 2500); simpl; eexists; (split; [reflexivity|]); simpl;
    rewrite Hres, Htr, flushes_app; (split; [done|]);
    (split; [exact (Nat.add_0_r _)|exact Hr1]).
Qed.

Lemma trial_201_quiet n w o x h b p :
  ready n b → quiet n h →
  payload (val h) = Some p → p ≠ [] →
  ∃ b', trial_201 [w; o; x] h b = Ok tt b'
        ∧ results b' = results b ++ [(group_201 p, [w; o; x])]
        ∧ flushes (trace b') = flushes (trace b)
        ∧ ready n b'.
Proof.
  intros Hr Hq Hp Hne.
  pose proof Hq as (Hst & _ & _ & _ & Hv).
  set (ba := set_scope (set_settings
               (λ m, <["glitch.ext_offset" := VNum x]>
                       (<["glitch.offset" := VNum o]> (<["glitch.width" := VNum w]> m)))
               (scope b)) b).
  assert (Hra : ready n ba).
  { apply ready_applied; [done|]. intros m. by lookups. }
  destruct (fire_201_quiet n h ba Hra Hq) as (b1 & Hf & Hr1).
  assert (Ha : attempt_201 [w; o; x] h b = Ok (false, [w; o; x]) b1).
  { unfold attempt_201, bind.
    rewrite (apply_201_spec [w; o; x] w o x b eq_refl eq_refl eq_refl).
    fold ba. cbv beta iota. rewrite precheck_201_spec, Hst, Hf. reflexivity. }
  destruct (attempt_201_inv _ _ _ _ _ _ Ha)
    as (w' & o' & x' & _ & _ & _ & _ & Hres & Htr & _).
  unfold precheck_records, precheck_events in *. rewrite Hst in *.
  rewrite app_nil_r in Hres. simpl in Htr.
  destruct p as [|c p]; [done|].
  assert (Htrial : trial_201 [w; o; x] h b = classify_201 h (false, [w; o; x]) b1)
    by (unfold trial_201, bind; by rewrite Ha).
  rewrite Htrial.
  unfold classify_201, index, gc_add, set_broken. run.
  rewrite Hv, Hp. simpl.
  destruct (_ =? 0); simpl; eexists; (split; [reflexivity|]); simpl;
    rewrite Hres, Htr, flushes_app; (split; [done|]);
    (split; [exact (Nat.add_0_r _)|exact Hr1]).
Qed.

Lemma for_each_records body (rec : TrialIO → list Z → Group * list Z)
    (P : TrialIO → list Z → Prop) n :
  (∀ gs h b, ready n b → P h gs →
     ∃ b', body gs h b = Ok tt b'
           ∧ results b' = results b ++ [rec h gs]
           ∧ flushes (trace b') = flushes (trace b)
           ∧ ready n b') →
  ∀ hs todo i b,
    ready n b →
    (∀ j gs, todo !! j = Some gs → P (hs (i + j)%nat) gs) →
    ∃ b', for_each body hs i todo b = Ok tt b'
          ∧ results b' = results b ++ imap (λ j gs, rec (hs (i + j)%nat) gs) todo
          ∧ flushes (trace b') = flushes (trace b)
          ∧ ready n b'.
Proof.
  intros Hbody hs todo. induction todo as [|gs todo IH]; intros i b Hr HP.
  - exists b. simpl. by rewrite app_nil_r.
  - assert (H0 : P (hs i) gs).
    { specialize (HP 0%nat gs eq_refl). by rewrite Nat.add_0_r in HP. }
    destruct (Hbody gs (hs i) b Hr H0) as (b1 & Hb & Hres1 & Hfl1 & Hr1).
    destruct (IH (S i) b1 Hr1) as (b2 & Hfe & Hres2 & Hfl2 & Hr2).
    { intros j gs' Hj. specialize (HP (S j) gs' Hj).
      by replace (i + S j)%nat with (S i + j)%nat in HP by lia. }
    exists b2. split; [|split; [|split; [congruence|done]]].
    + simpl. unfold bind. by rewrite Hb.
    + rewrite Hres2, Hres1, <- app_assoc. f_equal. simpl.
      rewrite Nat.add_0_r. f_equal. apply imap_ext. intros j gs' _. simpl.
      by replace (i + S j)%nat with (S (i + j)) by lia.
Qed.

(** X19 (glitch_101.py lines 57-109, glitch_201.py lines 56-111, OpenADC.py
    [arm] and [capture]): a sweep in which nothing goes wrong runs to its
    end and files exactly one record per setting, in the order of the
    settings.  On a connected scope that is not a Husky, when in every pass
    the trigger line is low, [arm()] succeeds, the capture sees its trigger
    and reads [adc.samples] samples, and the answer is valid with a payload
    of the expected length, the loop returns, the record of a pass is
    [normal] or [success] by its payload alone, [reboot_flush()] is never
    called, and the scope is as fit for a pass at the end as at the start. *)
Theorem quiet_sweep_records_every_setting
    (n : Z) (hs : nat → TrialIO) (i : nat) (todo : list (list Z)) (b : Bench) :
  ready n b →
  (∀ j gs, todo !! j = Some gs → quiet n (hs (i + j)%nat)) →
  ((∀ j gs, todo !! j = Some gs →
      (∃ w o, gs = [w; o]) ∧ length (payload_bytes (hs (i + j)%nat)) = 4%nat) →
   ∃ b', for_each trial_101 hs i todo b = Ok tt b'
         ∧ results b'
           = results b
             ++ imap (λ j gs, (group_101 (payload_bytes (hs (i + j)%nat)), gs)) todo
         ∧ flushes (trace b') = flushes (trace b)
         ∧ ready n b')
  ∧ ((∀ j gs, todo !! j = Some gs →
        (∃ w o x, gs = [w; o; x]) ∧ payload_bytes (hs (i + j)%nat) ≠ []) →
     ∃ b', for_each trial_201 hs i todo b = Ok tt b'
           ∧ results b'
             = results b
               ++ imap (λ j gs, (group_201 (payload_bytes (hs (i + j)%nat)), gs)) todo
           ∧ flushes (trace b') = flushes (trace b)
           ∧ ready n b').
Proof.
  intros Hr Hq. split; intros Hshape.
  - apply (for_each_records trial_101
             (λ h gs, (group_101 (payload_bytes h), gs))
             (λ h gs, quiet n h ∧ (∃ w o, gs = [w; o])
                      ∧ length (payload_bytes h) = 4%nat)
             n); [|exact Hr|].
    + intros gs h b0 Hr0 (Hq0 & (w & o & ->) & Hlen).
      unfold payload_bytes in *.
      destruct (payload (val h)) as [p|] eqn:Hp; [|discriminate Hlen].
      exact (trial_101_quiet n w o h b0 p Hr0 Hq0 Hp Hlen).
    + intros j gs Hj. split; [by eapply Hq|by apply Hshape].
  - apply (for_each_records trial_201
             (λ h gs, (group_201 (payload_bytes h), gs))
             (λ h gs, quiet n h ∧ (∃ w o x, gs = [w; o; x]) ∧ payload_bytes h ≠ [])
             n); [|exact Hr|].
    + intros gs h b0 Hr0 (Hq0 & (w & o & x & ->) & Hne).
      unfold payload_bytes in *.
      destruct (payload (val h)) as [p|] eqn:Hp; [|done].
      exact (trial_201_quiet n w o x h b0 p Hr0 Hq0 Hp Hne).
    + intros j gs Hj. split; [by eapply Hq|by apply Hshape].
Qed.

Lemma quiet_sweep_records_every_setting_witness :
  let h := pass false false [7; 8; 9] (answer true (Some [xc4; x09; x00; x00])) in
  ready 3 bench0
  ∧ quiet 3 h
  ∧ ∃ b', for_each trial_101 (λ _, h) 0 [[8; 3]; [8; 4]] bench0 = Ok tt b'
          ∧ results b' = [(normal, [8; 3]); (normal, [8; 4])]
          ∧ flushes (trace b') = 0%nat.
Proof.
  intros h.
  assert (Hr : ready 3 bench0) by (by repeat split).
  assert (Hq : quiet 3 h).
  { repeat split; try reflexivity. exists [7; 8; 9]. by split. }
  split; [exact Hr|]. split; [exact Hq|].
  destruct (proj1 (quiet_sweep_records_every_setting 3 (λ _, h) 0 [[8; 3]; [8; 4]]
                     bench0 Hr (λ _ _ _, Hq)))
    as (b' & Hrun & Hres & Hfl & _).
  { intros j gs Hj. split; [|reflexivity].
    destruct j as [|[|j]]; simpl in Hj; [| |discriminate Hj];
      injection Hj as <-; by eexists _, _. }
  exists b'. split; [exact Hrun|]. split; [|exact Hfl].
  rewrite Hres. vm_compute. reflexivity.
Defined.
